(** * OfferCompare: the offer scoring and comparison engine

    A shallow embedding of [server/storage.ts] (class [MemStorage]) and of the
    offer handlers of [server/routes.ts], over the record types of
    [shared/schema.ts].

    Conventions of the embedding.
    - A JavaScript [number] that holds money, a percentage or a day count is a
      rational ([Q]); arithmetic is exact, so the rounding of IEEE doubles is
      idealised away.  Identifiers and counters are integers ([Z]).
    - [undefined] and [null] are [None]; a field that the code may leave
      [NaN] ([overallScore]) is an [option] whose [None] is [NaN].
    - A JavaScript [Map] keeps its entries in insertion order; it is an
      association list, [set] replacing in place or appending.
    - [new Date()] is a parameter [now] of the operation that reads the clock.
    - An [async] method is the function from the store before to its result
      and the store after. *)

From Stdlib Require Import ZArith QArith Qround List String Bool Lia Lqa.
From Stdlib Require Import DecimalString.
Import ListNotations.

Local Open Scope Z_scope.

(** ** JavaScript primitives used by the code *)
Module JS.

(** [a < b] on numbers. *)
Definition Qlt_bool (a b : Q) : bool := negb (Qle_bool b a).

(** Truthiness of a number: [0] is falsy. *)
Definition truthy (q : Q) : bool := negb (Qeq_bool q 0).

(** [Math.round]: the nearest integer, a tie going towards plus infinity. *)
Definition Math_round (x : Q) : Z := Qfloor (x + (1 # 2))%Q.

(** [x || d] for an optional number: [undefined], [null] and [0] give [d]. *)
Definition orZ (x : option Z) (d : Z) : Z :=
  match x with
  | Some v => if v =? 0 then d else v
  | None => d
  end.

Definition orQ (x : option Q) (d : Q) : Q :=
  match x with
  | Some v => if truthy v then v else d
  | None => d
  end.

(** [x === y] between a nullable number and a number. *)
Definition strict_eq (x : option Z) (y : Z) : bool :=
  match x with
  | Some v => v =? y
  | None => false
  end.

(** [a > b] where either side may be [NaN]: false as soon as one is. *)
Definition gt_nan (a b : option Z) : bool :=
  match a, b with
  | Some x, Some y => x >? y
  | _, _ => false
  end.

(** Template-literal rendering of an integer, and of [NaN]. *)
Definition showZ (z : Z) : string := NilZero.string_of_int (Z.to_int z).

Definition showNum (z : option Z) : string :=
  match z with
  | Some v => showZ v
  | None => "NaN"%string
  end.

(** [Map<number, V>]: entries in insertion order. *)
Definition Map (V : Type) : Type := list (Z * V).

Fixpoint get {V} (k : Z) (m : Map V) : option V :=
  match m with
  | [] => None
  | (k', v) :: rest => if k' =? k then Some v else get k rest
  end.

Fixpoint set {V} (k : Z) (v : V) (m : Map V) : Map V :=
  match m with
  | [] => [(k, v)]
  | (k', v') :: rest =>
      if k' =? k then (k, v) :: rest else (k', v') :: set k v rest
  end.

Definition values {V} (m : Map V) : list V := List.map snd m.

(** [Array.prototype.sort] with the comparator [key a - key b]: a stable
    sort, ascending in [key]. *)
Fixpoint sort_insert {A} (key : A -> Z) (x : A) (l : list A) : list A :=
  match l with
  | [] => [x]
  | y :: rest =>
      if key y <? key x then y :: sort_insert key x rest else x :: y :: rest
  end.

Definition sort_by {A} (key : A -> Z) (l : list A) : list A :=
  List.fold_right (sort_insert key) [] l.

End JS.

(** ** shared/schema.ts *)
Module Schema.

(** [Listing] ([typeof listings.$inferSelect]). *)
Record Listing : Type := mkListing {
  l_id : Z;
  l_userId : Z;
  l_address : string;
  l_city : string;
  l_state : string;
  l_zipCode : string;
  l_price : Q;
  l_loanBalance : option Q;
  l_bedrooms : Z;
  l_bathrooms : Q;
  l_sqft : option Z;
  l_description : option string;
  l_status : string;
  l_listedDate : Z;
  l_imageUrl : option string;
  l_createdAt : Z
}.

(** [InsertListing]: [id], [userId], [createdAt], [listedDate] omitted. *)
Record InsertListing : Type := mkInsertListing {
  il_address : string;
  il_city : string;
  il_state : string;
  il_zipCode : string;
  il_price : Q;
  il_loanBalance : option Q;
  il_bedrooms : Z;
  il_bathrooms : Q;
  il_sqft : option Z;
  il_description : option string;
  il_status : option string;
  il_imageUrl : option string
}.

(** [InsertOffer]: the validated body of an offer creation; [id],
    [userId], [createdAt], [riskScore], [overallScore] and [netProceeds]
    are omitted by [insertOfferSchema]. *)
Record InsertOffer : Type := mkInsertOffer {
  in_listingId : Z;
  in_parentOfferId : option Z;
  in_versionNumber : option Z;
  in_isCounterOffer : option bool;
  in_buyerName : string;
  in_buyerType : option string;
  in_price : Q;
  in_agentCommission : option Q;
  in_commissionType : option string;
  in_closingDate : option Z;
  in_closingTimelineDays : option Q;
  in_contingencies : option (list string);
  in_notes : option string;
  in_status : option string;
  in_documentUrl : option string
}.

(** What [createOffer] receives at run time: an [InsertOffer], and the
    extra key [netProceeds] when the caller spread one in (the POST
    handler does; the demo script does not). *)
Record OfferInput : Type := mkOfferInput {
  fields : InsertOffer;
  given_netProceeds : option Q
}.

(** [Offer] ([typeof offers.$inferSelect]) as [MemStorage] holds it: no
    column default is applied in memory, so an optional input field that
    was not supplied stays [undefined]. *)
Record Offer : Type := mkOffer {
  o_id : Z;
  o_listingId : Z;
  o_userId : Z;
  o_parentOfferId : option Z;
  o_versionNumber : option Z;
  o_isCounterOffer : option bool;
  o_buyerName : string;
  o_buyerType : option string;
  o_price : Q;
  o_netProceeds : Q;
  o_agentCommission : option Q;
  o_commissionType : option string;
  o_closingDate : option Z;
  o_closingTimelineDays : option Q;
  o_contingencies : option (list string);
  o_riskScore : Z;
  o_overallScore : option Z;
  o_notes : option string;
  o_status : option string;
  o_documentUrl : option string;
  o_createdAt : Z
}.

(** [Partial<InsertOffer>]: every key optional.  The outer [None] is an
    absent key; a present key carries the value it will overwrite with,
    of the type the field has in [InsertOffer] ([null] included where the
    column is nullable). *)
Record PartialInsertOffer : Type := mkPartialInsertOffer {
  p_listingId : option Z;
  p_parentOfferId : option (option Z);
  p_versionNumber : option (option Z);
  p_isCounterOffer : option (option bool);
  p_buyerName : option string;
  p_buyerType : option (option string);
  p_price : option Q;
  p_agentCommission : option (option Q);
  p_commissionType : option (option string);
  p_closingDate : option (option Z);
  p_closingTimelineDays : option (option Q);
  p_contingencies : option (option (list string));
  p_notes : option (option string);
  p_status : option (option string);
  p_documentUrl : option (option string)
}.

(** [UsageEvent] and [InsertUsageEvent]. *)
Record UsageEvent : Type := mkUsageEvent {
  u_id : Z;
  u_userId : Z;
  u_eventType : string;
  u_stripeInvoiceId : option string;
  u_stripeUsageRecordId : option string;
  u_amount : Q;
  u_processed : bool;
  u_createdAt : Z
}.

Record InsertUsageEvent : Type := mkInsertUsageEvent {
  iu_userId : Z;
  iu_eventType : string;
  iu_amount : Q
}.

End Schema.

(** ** server/storage.ts: class MemStorage *)
Module MemStorage.
Import JS Schema.

(** The private maps and the id counters of the class (the user and
    priority maps, which no offer operation reads, are left out). *)
Record t : Type := mkStorage {
  listingsData : Map Listing;
  offersData : Map Offer;
  usageEventsData : Map UsageEvent;
  currentListingId : Z;
  currentOfferId : Z;
  currentUsageEventId : Z
}.

(** The constructor. *)
Definition empty : t :=
  {| listingsData := [];
     offersData := [];
     usageEventsData := [];
     currentListingId := 1;
     currentOfferId := 1;
     currentUsageEventId := 1 |}.

Definition with_listings (m : Map Listing) (next : Z) (s : t) : t :=
  {| listingsData := m;
     offersData := offersData s;
     usageEventsData := usageEventsData s;
     currentListingId := next;
     currentOfferId := currentOfferId s;
     currentUsageEventId := currentUsageEventId s |}.

Definition with_offers (m : Map Offer) (next : Z) (s : t) : t :=
  {| listingsData := listingsData s;
     offersData := m;
     usageEventsData := usageEventsData s;
     currentListingId := currentListingId s;
     currentOfferId := next;
     currentUsageEventId := currentUsageEventId s |}.

Definition with_usageEvents (m : Map UsageEvent) (next : Z) (s : t) : t :=
  {| listingsData := listingsData s;
     offersData := offersData s;
     usageEventsData := m;
     currentListingId := currentListingId s;
     currentOfferId := currentOfferId s;
     currentUsageEventId := next |}.

(** [createListing]: [{...listing, id, userId, createdAt, listedDate,
    status: "active"}]. *)
Definition createListing (listing : InsertListing) (userId now : Z) (s : t)
  : Listing * t :=
  let id := currentListingId s in
  let newListing :=
    {| l_id := id;
       l_userId := userId;
       l_address := il_address listing;
       l_city := il_city listing;
       l_state := il_state listing;
       l_zipCode := il_zipCode listing;
       l_price := il_price listing;
       l_loanBalance := il_loanBalance listing;
       l_bedrooms := il_bedrooms listing;
       l_bathrooms := il_bathrooms listing;
       l_sqft := il_sqft listing;
       l_description := il_description listing;
       l_status := "active";
       l_listedDate := now;
       l_imageUrl := il_imageUrl listing;
       l_createdAt := now |} in
  (newListing, with_listings (set id newListing (listingsData s)) (id + 1) s).

Definition getListing (id : Z) (s : t) : option Listing :=
  get id (listingsData s).

(** The three computed fields of [createOffer], in the order of the
    source. *)
Definition commissionOf (price : Q) (agentCommission : option Q) : Q :=
  match agentCommission with
  | Some c => if truthy c then c else ((6 # 100) * price)%Q
  | None => ((6 # 100) * price)%Q
  end.

Definition riskScoreOf (contingencies : list string) : Z :=
  Z.max 1 (10 - Z.of_nat (List.length contingencies) * 2).

Definition overallScoreOf (price : Q) (riskScore : Z)
    (closingTimelineDays : option Q) : option Z :=
  match closingTimelineDays with
  | Some d =>
      Some (Math_round ((price / 1000000 * 40) + (inject_Z riskScore * 5)
                        + (60 - d / 2))%Q)
  | None => None
  end.

(** [createOffer].  The record is [{...offer, id, userId, netProceeds,
    riskScore, overallScore, createdAt, contingencies}]: the keys written
    after the spread replace the keys of the same name that [offer]
    carries, so [given_netProceeds] is not read. *)
Definition createOffer (offer : OfferInput) (userId now : Z) (s : t)
  : Offer * t :=
  let id := currentOfferId s in
  let price := in_price (fields offer) in
  let commission := commissionOf price (in_agentCommission (fields offer)) in
  let netProceeds := (price - commission)%Q in
  let contingencies :=
    match in_contingencies (fields offer) with
    | Some l => l
    | None => []
    end in
  let riskScore := riskScoreOf contingencies in
  let overallScore :=
    overallScoreOf price riskScore (in_closingTimelineDays (fields offer)) in
  let newOffer :=
    {| o_id := id;
       o_listingId := in_listingId (fields offer);
       o_userId := userId;
       o_parentOfferId := in_parentOfferId (fields offer);
       o_versionNumber := in_versionNumber (fields offer);
       o_isCounterOffer := in_isCounterOffer (fields offer);
       o_buyerName := in_buyerName (fields offer);
       o_buyerType := in_buyerType (fields offer);
       o_price := in_price (fields offer);
       o_netProceeds := netProceeds;
       o_agentCommission := in_agentCommission (fields offer);
       o_commissionType := in_commissionType (fields offer);
       o_closingDate := in_closingDate (fields offer);
       o_closingTimelineDays := in_closingTimelineDays (fields offer);
       o_contingencies := Some contingencies;
       o_riskScore := riskScore;
       o_overallScore := overallScore;
       o_notes := in_notes (fields offer);
       o_status := in_status (fields offer);
       o_documentUrl := in_documentUrl (fields offer);
       o_createdAt := now |} in
  (newOffer, with_offers (set id newOffer (offersData s)) (id + 1) s).

Definition getOffers (listingId : Z) (s : t) : list Offer :=
  List.filter (fun offer => o_listingId offer =? listingId)
              (values (offersData s)).

Definition getOffer (id : Z) (s : t) : option Offer :=
  get id (offersData s).

(** [{...existingOffer, ...offer}]: a key of the update replaces the
    field, an absent key leaves it. *)
Definition over {A} (existing : A) (update : option A) : A :=
  match update with
  | Some v => v
  | None => existing
  end.

Definition spread (existingOffer : Offer) (offer : PartialInsertOffer)
  : Offer :=
  {| o_id := o_id existingOffer;
     o_listingId := over (o_listingId existingOffer) (p_listingId offer);
     o_userId := o_userId existingOffer;
     o_parentOfferId :=
       over (o_parentOfferId existingOffer) (p_parentOfferId offer);
     o_versionNumber :=
       over (o_versionNumber existingOffer) (p_versionNumber offer);
     o_isCounterOffer :=
       over (o_isCounterOffer existingOffer) (p_isCounterOffer offer);
     o_buyerName := over (o_buyerName existingOffer) (p_buyerName offer);
     o_buyerType := over (o_buyerType existingOffer) (p_buyerType offer);
     o_price := over (o_price existingOffer) (p_price offer);
     o_netProceeds := o_netProceeds existingOffer;
     o_agentCommission :=
       over (o_agentCommission existingOffer) (p_agentCommission offer);
     o_commissionType :=
       over (o_commissionType existingOffer) (p_commissionType offer);
     o_closingDate := over (o_closingDate existingOffer) (p_closingDate offer);
     o_closingTimelineDays :=
       over (o_closingTimelineDays existingOffer)
            (p_closingTimelineDays offer);
     o_contingencies :=
       over (o_contingencies existingOffer) (p_contingencies offer);
     o_riskScore := o_riskScore existingOffer;
     o_overallScore := o_overallScore existingOffer;
     o_notes := over (o_notes existingOffer) (p_notes offer);
     o_status := over (o_status existingOffer) (p_status offer);
     o_documentUrl := over (o_documentUrl existingOffer) (p_documentUrl offer);
     o_createdAt := o_createdAt existingOffer |}.

(** [updateOffer]. *)
Definition updateOffer (id : Z) (offer : PartialInsertOffer) (s : t)
  : option Offer * t :=
  match getOffer id s with
  | None => (None, s)
  | Some existingOffer =>
      let updatedOffer := spread existingOffer offer in
      (Some updatedOffer,
       with_offers (set id updatedOffer (offersData s)) (currentOfferId s) s)
  end.

(** [getOfferHistory]. *)
Definition getOfferHistory (offerId : Z) (s : t) : list Offer :=
  match getOffer offerId s with
  | None => []
  | Some offer =>
      let rootOfferId := orZ (o_parentOfferId offer) (o_id offer) in
      match getOffer rootOfferId s with
      | None => [offer]
      | Some _ =>
          let counterOffers :=
            List.filter
              (fun o => strict_eq (o_parentOfferId o) rootOfferId
                        || (o_id o =? rootOfferId))
              (values (offersData s)) in
          if (Z.of_nat (List.length counterOffers) =? 0) then [offer]
          else sort_by (fun a => orZ (o_versionNumber a) 1) counterOffers
      end
  end.

(** [createUsageEvent]. *)
Definition createUsageEvent (event : InsertUsageEvent) (now : Z) (s : t)
  : UsageEvent * t :=
  let id := currentUsageEventId s in
  let newEvent :=
    {| u_id := id;
       u_userId := iu_userId event;
       u_eventType := iu_eventType event;
       u_stripeInvoiceId := None;
       u_stripeUsageRecordId := None;
       u_amount := iu_amount event;
       u_processed := false;
       u_createdAt := now |} in
  (newEvent,
   with_usageEvents (set id newEvent (usageEventsData s)) (id + 1) s).

End MemStorage.

(** ** server/routes.ts: the offer handlers of registerRoutes *)
Module Routes.
Import JS Schema MemStorage.

Local Open Scope string_scope.

(** What a handler sends: [res.status(n).json(body)], the body being a
    payload or a [{message}] object. *)
Inductive Response (A : Type) : Type :=
| Json (status : Z) (body : A)
| Message (status : Z) (message : string).
Arguments Json {A} status body.
Arguments Message {A} status message.

(** The commission block that both [POST /api/offers] and
    [POST /api/offers/extract] contain:
    [let agentCommission = Number(x.agentCommission || 0);
     if (agentCommission > 0 && agentCommission <= 20)
       agentCommission = (price * agentCommission) / 100;]. *)
Definition resolveAgentCommission (price : Q) (raw : option Q) : Q :=
  let agentCommission := orQ raw 0 in
  if Qlt_bool 0 agentCommission && Qle_bool agentCommission 20
  then ((price * agentCommission) / 100)%Q
  else agentCommission.

(** [price - loanBalance - agentCommission] of both handlers. *)
Definition routeNetProceeds (listing : Listing) (price : Q)
    (raw : option Q) : Q :=
  let loanBalance := orQ (l_loanBalance listing) 0 in
  let agentCommission := resolveAgentCommission price raw in
  (price - loanBalance - agentCommission)%Q.

(** [{...validatedData, netProceeds: price - loanBalance - agentCommission}]. *)
Definition offerWithNetProceeds (listing : Listing)
    (validatedData : InsertOffer) : OfferInput :=
  {| fields := validatedData;
     given_netProceeds :=
       Some (routeNetProceeds listing (in_price validatedData)
               (in_agentCommission validatedData)) |}.

(** [POST /api/offers].  [user] is [req.user.id] when the request is
    authenticated; [body] is the result of [insertOfferSchema.parse],
    [None] when it throws a [ZodError]. *)
Definition post_offers (user : option Z) (body : option InsertOffer)
    (now : Z) (s : MemStorage.t) : Response Offer * MemStorage.t :=
  match user with
  | None => (Message 401 "Unauthorized", s)
  | Some uid =>
      match body with
      | None => (Message 400 "Validation error", s)
      | Some validatedData =>
          match getListing (in_listingId validatedData) s with
          | None => (Message 404 "Listing not found", s)
          | Some listing =>
              if negb (l_userId listing =? uid)%Z
              then (Message 403
                      "You don't have permission to add offers to this listing",
                    s)
              else
                let '(offer, s1) :=
                  createOffer (offerWithNetProceeds listing validatedData)
                              uid now s in
                let '(_, s2) :=
                  createUsageEvent
                    {| iu_userId := uid;
                       iu_eventType := "offer_creation";
                       iu_amount := 1 |} now s1 in
                (Json 201 offer, s2)
          end
      end
  end.

(** [GET /api/offers/:id/history].  A parameter that does not parse is
    [NaN], the key of no entry, and behaves as any absent id. *)
Definition get_offer_history (user : option Z) (offerId : Z)
    (s : MemStorage.t) : Response (list Offer) :=
  match user with
  | None => Message 401 "Unauthorized"
  | Some uid =>
      match getOffer offerId s with
      | None => Message 404 "Offer not found"
      | Some offer =>
          match getListing (o_listingId offer) s with
          | None =>
              Message 403
                "You don't have permission to view this offer history"
          | Some listing =>
              if negb (l_userId listing =? uid)%Z
              then Message 403
                     "You don't have permission to view this offer history"
              else Json 200 (getOfferHistory offerId s)
          end
      end
  end.

(** The payload of [GET /api/listings/:listingId/insights]. *)
Record Insights : Type := mkInsights {
  recommendation : string;
  riskAssessment : option string;
  netProceedsComparison : option string;
  negotiationOpportunities : option string
}.

(** An expression that may throw, inside the handler's [try]. *)
Inductive Outcome (A : Type) : Type :=
| Returned (a : A)
| Thrown (error : string).
Arguments Returned {A} a.
Arguments Thrown {A} error.

Definition bind {A B} (x : Outcome A) (f : A -> Outcome B) : Outcome B :=
  match x with
  | Returned a => f a
  | Thrown e => Thrown e
  end.

(** Reading a property of [offers[i]]: a [TypeError] when the element is
    [undefined]. *)
Definition element (offers : list Offer) (i : nat) : Outcome Offer :=
  match List.nth_error offers i with
  | Some o => Returned o
  | None => Thrown "TypeError: Cannot read properties of undefined"
  end.

(** [(o.contingencies as string[]).length]. *)
Definition contingencyCount (o : Offer) : Outcome Z :=
  match o_contingencies o with
  | Some l => Returned (Z.of_nat (List.length l))
  | None => Thrown "TypeError: Cannot read properties of null"
  end.

(** The [for (const offer of offers)] loop: the three running maxima, each
    replaced only by a strictly greater offer. *)
Definition scan (offers : list Offer) (first : Offer)
  : Offer * Offer * Offer :=
  List.fold_left
    (fun '(bestOffer, lowestRiskOffer, highestNetProceedsOffer) offer =>
       (if gt_nan (o_overallScore offer) (o_overallScore bestOffer)
        then offer else bestOffer,
        if (o_riskScore offer >? o_riskScore lowestRiskOffer)%Z
        then offer else lowestRiskOffer,
        if Qlt_bool (o_netProceeds highestNetProceedsOffer)
                    (o_netProceeds offer)
        then offer else highestNetProceedsOffer))
    offers (first, first, first).

Section Insights.

(** [Number.prototype.toLocaleString], which depends on the locale of
    the host. *)
Variable toLocaleString : Q -> string.

(** The object literal [insights], its properties evaluated in order. *)
Definition prepareInsights (offers : list Offer) (first : Offer)
  : Outcome Insights :=
  let '(bestOffer, lowestRiskOffer, highestNetProceedsOffer) :=
    scan offers first in
  let recommendation :=
    "Based on your priorities, the offer from " ++ o_buyerName bestOffer
    ++ " is the strongest overall option with a score of "
    ++ showNum (o_overallScore bestOffer) ++ "/100." in
  bind (contingencyCount lowestRiskOffer) (fun count =>
  let riskAssessment :=
    "The " ++ o_buyerName lowestRiskOffer
    ++ " offer has the lowest risk with " ++ showZ count
    ++ " contingencies. Consider this option if certainty of closing is your highest priority." in
  bind (element offers 1) (fun second =>
  let highest := o_netProceeds highestNetProceedsOffer in
  let other := o_netProceeds second in
  let netProceedsComparison :=
    "The " ++ o_buyerName highestNetProceedsOffer
    ++ " offer provides the highest net proceeds at $"
    ++ toLocaleString highest ++ ", which is "
    ++ (if Qlt_bool 0 (highest - other)%Q
        then "$" ++ toLocaleString (highest - other)%Q ++ " more"
        else "$" ++ toLocaleString (other - highest)%Q ++ " less")
    ++ " than the next best offer." in
  Returned
    {| recommendation := recommendation;
       riskAssessment := Some riskAssessment;
       netProceedsComparison := Some netProceedsComparison;
       negotiationOpportunities :=
         Some "Consider asking buyers to reduce contingencies or improve their offer price to strengthen their position." |})).

(** [GET /api/listings/:listingId/insights].  The handler also reads the
    listing's priorities and does not use them. *)
Definition get_listing_insights (user : option Z) (listingId : Z)
    (s : MemStorage.t) : Response Insights :=
  match user with
  | None => Message 401 "Unauthorized"
  | Some uid =>
      let forbidden :=
        Message 403
          "You don't have permission to view insights for this listing" in
      match getListing listingId s with
      | None => forbidden
      | Some listing =>
          if negb (l_userId listing =? uid)%Z then forbidden
          else
            let offers := getOffers listingId s in
            match offers with
            | [] =>
                Json 200
                  {| recommendation := "No offers to analyze yet";
                     riskAssessment := None;
                     netProceedsComparison := None;
                     negotiationOpportunities := None |}
            | first :: _ =>
                match prepareInsights offers first with
                | Returned insights => Json 200 insights
                | Thrown _ => Message 500 "Failed to generate insights"
                end
            end
      end
  end.

End Insights.

(** [ExtractedOffer] of [server/openai.ts], the output of the extraction
    service, and the [extractedData] that the handler answers with. *)
Record ExtractedOffer : Type := mkExtractedOffer {
  x_buyerName : string;
  x_buyerType : string;
  x_price : Q;
  x_agentCommission : option Q;
  x_closingTimelineDays : Q;
  x_contingencies : list string;
  x_notes : string
}.

Record Extraction : Type := mkExtraction {
  extractedData : ExtractedOffer;
  extracted_netProceeds : Q;
  documentUrl : string
}.

(** [POST /api/offers/extract].  [file] is [req.file.path] when a document
    was uploaded, [listingId] is [parseInt(req.body.listingId)] ([None]
    for [NaN]), [extracted] is what [extractOfferDetails] returned for the
    document, which is taken to be readable. *)
Definition post_offers_extract (user : option Z) (file : option string)
    (listingId : option Z) (extracted : ExtractedOffer) (now : Z)
    (s : MemStorage.t) : Response Extraction * MemStorage.t :=
  match user with
  | None => (Message 401 "Unauthorized", s)
  | Some uid =>
      match file with
      | None => (Message 400 "No document uploaded", s)
      | Some path =>
          match listingId with
          | None => (Message 400 "Invalid listing ID", s)
          | Some lid =>
              let forbidden :=
                (Message 403
                   "You don't have permission to add offers to this listing",
                 s) in
              match getListing lid s with
              | None => forbidden
              | Some listing =>
                  if negb (l_userId listing =? uid)%Z then forbidden
                  else
                    let netProceeds :=
                      routeNetProceeds listing (x_price extracted)
                                       (x_agentCommission extracted) in
                    let '(_, s1) :=
                      createUsageEvent
                        {| iu_userId := uid;
                           iu_eventType := "document_extraction";
                           iu_amount := 25 # 10 |} now s in
                    (Json 200
                       {| extractedData := extracted;
                          extracted_netProceeds := netProceeds;
                          documentUrl := path |},
                     s1)
              end
          end
      end
  end.

End Routes.

(** ** Concrete stores, built through the operations themselves *)
Module Scenario.
Import JS Schema MemStorage Routes.

Local Open Scope string_scope.

Definition agent : Z := 7.

Definition home : InsertListing :=
  {| il_address := "12 Elm Street";
     il_city := "Springfield";
     il_state := "IL";
     il_zipCode := "62704";
     il_price := 725000;
     il_loanBalance := Some 200000%Q;
     il_bedrooms := 4;
     il_bathrooms := 5 # 2;
     il_sqft := Some 2400;
     il_description := None;
     il_status := None;
     il_imageUrl := None |}.

(** A store holding one listing (id 1, loan balance 200000) and no offer. *)
Definition listed : MemStorage.t := snd (createListing home agent 100 empty).

(** The manual-entry body of the first scenario: price 700000, commission
    3 (percent), one contingency, 30 days. *)
Definition robinson : InsertOffer :=
  {| in_listingId := 1;
     in_parentOfferId := None;
     in_versionNumber := Some 1;
     in_isCounterOffer := Some false;
     in_buyerName := "Robinson";
     in_buyerType := Some "pre-approved";
     in_price := 700000;
     in_agentCommission := Some 3%Q;
     in_commissionType := Some "percent";
     in_closingDate := None;
     in_closingTimelineDays := Some 30%Q;
     in_contingencies := Some ["inspection"];
     in_notes := None;
     in_status := Some "pending";
     in_documentUrl := None |}.

(** The same offer as the extraction service returns it for a document. *)
Definition robinson_extracted : ExtractedOffer :=
  {| x_buyerName := "Robinson";
     x_buyerType := "pre-approved";
     x_price := 700000;
     x_agentCommission := Some 3%Q;
     x_closingTimelineDays := 30;
     x_contingencies := ["inspection"];
     x_notes := "Seller to leave the appliances." |}.

(** The same body with the commission left out. *)
Definition no_commission : InsertOffer :=
  {| in_listingId := 1;
     in_parentOfferId := None;
     in_versionNumber := Some 1;
     in_isCounterOffer := Some false;
     in_buyerName := "Chen";
     in_buyerType := Some "cash";
     in_price := 700000;
     in_agentCommission := None;
     in_commissionType := None;
     in_closingDate := None;
     in_closingTimelineDays := Some 30%Q;
     in_contingencies := Some ["inspection"];
     in_notes := None;
     in_status := Some "pending";
     in_documentUrl := None |}.

(** A low offer with six contingencies and a 400-day close. *)
Definition slow_close : InsertOffer :=
  {| in_listingId := 1;
     in_parentOfferId := None;
     in_versionNumber := Some 1;
     in_isCounterOffer := Some false;
     in_buyerName := "Johnson";
     in_buyerType := Some "first-time";
     in_price := 100000;
     in_agentCommission := Some 3%Q;
     in_commissionType := Some "percent";
     in_closingDate := None;
     in_closingTimelineDays := Some 400%Q;
     in_contingencies :=
       Some ["financing"; "inspection"; "appraisal"; "home sale"; "title";
             "survey"];
     in_notes := None;
     in_status := Some "pending";
     in_documentUrl := None |}.

(** An update that supplies the price and nothing else. *)
Definition reprice (price : Q) : PartialInsertOffer :=
  {| p_listingId := None;
     p_parentOfferId := None;
     p_versionNumber := None;
     p_isCounterOffer := None;
     p_buyerName := None;
     p_buyerType := None;
     p_price := Some price;
     p_agentCommission := None;
     p_commissionType := None;
     p_closingDate := None;
     p_closingTimelineDays := None;
     p_contingencies := None;
     p_notes := None;
     p_status := None;
     p_documentUrl := None |}.

(** The input of a direct [createOffer] call, no [netProceeds] key
    spread in. *)
Definition bare (body : InsertOffer) : OfferInput :=
  {| fields := body; given_netProceeds := None |}.

(** The body that the counter-offer form submits for [parent]:
    [parentOfferId: parent.id], [versionNumber: parent.versionNumber + 1],
    [isCounterOffer: true], the new [price], the other fields taken from
    the parent. *)
Definition counterOf (parent : Offer) (price : Q) : InsertOffer :=
  {| in_listingId := o_listingId parent;
     in_parentOfferId := Some (o_id parent);
     in_versionNumber := Some (orZ (o_versionNumber parent) 0 + 1);
     in_isCounterOffer := Some true;
     in_buyerName := o_buyerName parent;
     in_buyerType := o_buyerType parent;
     in_price := price;
     in_agentCommission := o_agentCommission parent;
     in_commissionType :=
       Some (match o_agentCommission parent with
             | Some c =>
                 if truthy c && Qlt_bool 0 c && Qlt_bool c 20
                 then "percent" else "dollar"
             | None => "dollar"
             end);
     in_closingDate := None;
     in_closingTimelineDays := o_closingTimelineDays parent;
     in_contingencies := o_contingencies parent;
     in_notes := o_notes parent;
     in_status := None;
     in_documentUrl := None |}.

(** The store after [POST /api/offers] with [body] by the listing's owner,
    and the offer it answered with (the store unchanged and no offer on
    any refusal). *)
Definition posted (body : InsertOffer) (now : Z) (s : MemStorage.t)
  : option Offer * MemStorage.t :=
  match post_offers (Some agent) (Some body) now s with
  | (Json _ offer, s') => (Some offer, s')
  | (Message _ _, s') => (None, s')
  end.

(** One offer on the listing. *)
Definition one_offer : MemStorage.t := snd (posted robinson 101 listed).

(** A thread v1 -> v2 -> v3: the offer, a counter to it, a counter to the
    counter. *)
Definition thread : MemStorage.t :=
  match posted robinson 101 listed with
  | (Some v1, s1) =>
      match posted (counterOf v1 690000) 102 s1 with
      | (Some v2, s2) => snd (posted (counterOf v2 695000) 103 s2)
      | (None, s2) => s2
      end
  | (None, s1) => s1
  end.

End Scenario.

(** ** What a successful creation leaves in the store *)
Module Created.
Import JS Schema MemStorage Routes.

(** The record that [POST /api/offers] persisted, read back from the
    store under the id of the offer the handler answered with; [None] when
    the handler refused. *)
Definition stored_by_post (uid : Z) (body : InsertOffer) (now : Z)
    (s : MemStorage.t) : option Offer :=
  match post_offers (Some uid) (Some body) now s with
  | (Json _ offer, s') => getOffer (o_id offer) s'
  | (Message _ _, _) => None
  end.

(** The length of the contingency list of an input, [undefined] counting
    as the empty list. *)
Definition contingency_count (body : InsertOffer) : Z :=
  match in_contingencies body with
  | Some l => Z.of_nat (List.length l)
  | None => 0
  end.

(** A field after an update, against the same field before and the key of
    the update. *)
Definition follows {A} (before after : A) (supplied : option A) : Prop :=
  match supplied with
  | Some v => after = v
  | None => after = before
  end.

(** The fields that [createOffer] computes or assigns and that no key of
    [InsertOffer] names. *)
Definition same_computed (before after : Offer) : Prop :=
  o_netProceeds after = o_netProceeds before /\
  o_riskScore after = o_riskScore before /\
  o_overallScore after = o_overallScore before /\
  o_id after = o_id before /\
  o_userId after = o_userId before /\
  o_createdAt after = o_createdAt before.

(** Every field that [InsertOffer] names holds the supplied value, or the
    value it held when its key is absent from the update. *)
Definition fields_follow (before after : Offer)
    (update : PartialInsertOffer) : Prop :=
  follows (o_listingId before) (o_listingId after) (p_listingId update) /\
  follows (o_parentOfferId before) (o_parentOfferId after)
          (p_parentOfferId update) /\
  follows (o_versionNumber before) (o_versionNumber after)
          (p_versionNumber update) /\
  follows (o_isCounterOffer before) (o_isCounterOffer after)
          (p_isCounterOffer update) /\
  follows (o_buyerName before) (o_buyerName after) (p_buyerName update) /\
  follows (o_buyerType before) (o_buyerType after) (p_buyerType update) /\
  follows (o_price before) (o_price after) (p_price update) /\
  follows (o_agentCommission before) (o_agentCommission after)
          (p_agentCommission update) /\
  follows (o_commissionType before) (o_commissionType after)
          (p_commissionType update) /\
  follows (o_closingDate before) (o_closingDate after)
          (p_closingDate update) /\
  follows (o_closingTimelineDays before) (o_closingTimelineDays after)
          (p_closingTimelineDays update) /\
  follows (o_contingencies before) (o_contingencies after)
          (p_contingencies update) /\
  follows (o_notes before) (o_notes after) (p_notes update) /\
  follows (o_status before) (o_status after) (p_status update) /\
  follows (o_documentUrl before) (o_documentUrl after)
          (p_documentUrl update).

(** The rest of the store: every other offer, the other maps and the
    counters. *)
Definition same_elsewhere (id : Z) (before after : MemStorage.t) : Prop :=
  (forall other, other <> id -> getOffer other after = getOffer other before)
  /\ List.map fst (offersData after) = List.map fst (offersData before)
  /\ listingsData after = listingsData before
  /\ usageEventsData after = usageEventsData before
  /\ currentListingId after = currentListingId before
  /\ currentOfferId after = currentOfferId before
  /\ currentUsageEventId after = currentUsageEventId before.

End Created.


From Stdlib Require Import Sorted Permutation.

(** ** server/storage.ts: the listing and usage-event methods *)
Module Listings.
Import JS Schema MemStorage Routes.

(** What [updateListing] receives at run time.  Its parameter is declared
    [Partial<InsertListing>], but its caller, [PATCH /api/listings/:id],
    passes [req.body] as it came: a key of any column may be present,
    [id], [userId], [listedDate] and [createdAt] included.  A present key
    is taken to carry a value of the column's type. *)
Record ListingPatch : Type := mkListingPatch {
  pl_id : option Z;
  pl_userId : option Z;
  pl_address : option string;
  pl_city : option string;
  pl_state : option string;
  pl_zipCode : option string;
  pl_price : option Q;
  pl_loanBalance : option (option Q);
  pl_bedrooms : option Z;
  pl_bathrooms : option Q;
  pl_sqft : option (option Z);
  pl_description : option (option string);
  pl_status : option string;
  pl_listedDate : option Z;
  pl_imageUrl : option (option string);
  pl_createdAt : option Z
}.

(** [getListings]. *)
Definition getListings (userId : Z) (s : MemStorage.t) : list Listing :=
  List.filter (fun listing => l_userId listing =? userId)
              (values (listingsData s)).

(** [{...existingListing, ...listing}]: every key of the input replaces
    the field of that name. *)
Definition spreadListing (existingListing : Listing) (listing : ListingPatch)
  : Listing :=
  {| l_id := over (l_id existingListing) (pl_id listing);
     l_userId := over (l_userId existingListing) (pl_userId listing);
     l_address := over (l_address existingListing) (pl_address listing);
     l_city := over (l_city existingListing) (pl_city listing);
     l_state := over (l_state existingListing) (pl_state listing);
     l_zipCode := over (l_zipCode existingListing) (pl_zipCode listing);
     l_price := over (l_price existingListing) (pl_price listing);
     l_loanBalance :=
       over (l_loanBalance existingListing) (pl_loanBalance listing);
     l_bedrooms := over (l_bedrooms existingListing) (pl_bedrooms listing);
     l_bathrooms := over (l_bathrooms existingListing) (pl_bathrooms listing);
     l_sqft := over (l_sqft existingListing) (pl_sqft listing);
     l_description :=
       over (l_description existingListing) (pl_description listing);
     l_status := over (l_status existingListing) (pl_status listing);
     l_listedDate :=
       over (l_listedDate existingListing) (pl_listedDate listing);
     l_imageUrl := over (l_imageUrl existingListing) (pl_imageUrl listing);
     l_createdAt := over (l_createdAt existingListing) (pl_createdAt listing) |}.

(** [updateListing]. *)
Definition updateListing (id : Z) (listing : ListingPatch)
    (s : MemStorage.t) : option Listing * MemStorage.t :=
  match getListing id s with
  | None => (None, s)
  | Some existingListing =>
      let updatedListing := spreadListing existingListing listing in
      (Some updatedListing,
       with_listings (set id updatedListing (listingsData s))
                     (currentListingId s) s)
  end.

(** [getUserUsageEvents]. *)
Definition getUserUsageEvents (userId : Z) (s : MemStorage.t)
  : list UsageEvent :=
  List.filter (fun event => u_userId event =? userId)
              (values (usageEventsData s)).

(** [x || d] for an optional string: [undefined], [null] and the empty
    string give [d]. *)
Definition orS (x d : option string) : option string :=
  match x with
  | Some EmptyString => d
  | Some v => Some v
  | None => d
  end.

(** [markUsageEventAsProcessed]: throws when the event is absent. *)
Definition markUsageEventAsProcessed (id : Z)
    (stripeInvoiceId stripeUsageRecordId : option string) (s : MemStorage.t)
  : Outcome UsageEvent * MemStorage.t :=
  match get id (usageEventsData s) with
  | None => (Thrown "Usage event not found", s)
  | Some event =>
      let updatedEvent :=
        {| u_id := u_id event;
           u_userId := u_userId event;
           u_eventType := u_eventType event;
           u_stripeInvoiceId := orS stripeInvoiceId (u_stripeInvoiceId event);
           u_stripeUsageRecordId :=
             orS stripeUsageRecordId (u_stripeUsageRecordId event);
           u_amount := u_amount event;
           u_processed := true;
           u_createdAt := u_createdAt event |} in
      (Returned updatedEvent,
       with_usageEvents (set id updatedEvent (usageEventsData s))
                        (currentUsageEventId s) s)
  end.

End Listings.

(** ** server/storage.ts: the listing-priority methods

    [listingPrioritiesData] and [currentPriorityId] are the part of the
    class that these methods read and write; the state of the class is
    this record beside [MemStorage.t]. *)
Module Priorities.
Import JS Schema MemStorage.

(** [ListingPriorities] as the store holds it.  The five weights are
    numbers in [InsertListingPriorities]; they are optional here because
    [updateListingPriorities] creates a profile from a partial input. *)
Record ListingPriorities : Type := mkListingPriorities {
  lp_id : Z;
  lp_listingId : Z;
  lp_offerPrice : option Z;
  lp_netProceeds : option Z;
  lp_closingTimeline : option Z;
  lp_contingencies : option Z;
  lp_buyerQualification : option Z;
  lp_createdAt : Z
}.

Record InsertListingPriorities : Type := mkInsertListingPriorities {
  ip_listingId : Z;
  ip_offerPrice : option Z;
  ip_netProceeds : option Z;
  ip_closingTimeline : option Z;
  ip_contingencies : option Z;
  ip_buyerQualification : option Z
}.

(** [Partial<InsertListingPriorities>]. *)
Record PartialPriorities : Type := mkPartialPriorities {
  pp_listingId : option Z;
  pp_offerPrice : option Z;
  pp_netProceeds : option Z;
  pp_closingTimeline : option Z;
  pp_contingencies : option Z;
  pp_buyerQualification : option Z
}.

Record t : Type := mkPriorities {
  listingPrioritiesData : Map ListingPriorities;
  currentPriorityId : Z
}.

(** The constructor. *)
Definition empty : t :=
  {| listingPrioritiesData := []; currentPriorityId := 1 |}.

(** [createListingPriorities]. *)
Definition createListingPriorities (priorities : InsertListingPriorities)
    (now : Z) (ps : t) : ListingPriorities * t :=
  let id := currentPriorityId ps in
  let newPriorities :=
    {| lp_id := id;
       lp_listingId := ip_listingId priorities;
       lp_offerPrice := ip_offerPrice priorities;
       lp_netProceeds := ip_netProceeds priorities;
       lp_closingTimeline := ip_closingTimeline priorities;
       lp_contingencies := ip_contingencies priorities;
       lp_buyerQualification := ip_buyerQualification priorities;
       lp_createdAt := now |} in
  (newPriorities,
   {| listingPrioritiesData := set id newPriorities (listingPrioritiesData ps);
      currentPriorityId := id + 1 |}).

(** [getListingPriorities]: the first profile, in insertion order, of the
    listing. *)
Definition getListingPriorities (listingId : Z) (ps : t)
  : option ListingPriorities :=
  List.find (fun priority => lp_listingId priority =? listingId)
            (values (listingPrioritiesData ps)).

(** A weight after [{...existing, ...priorities}]: a supplied number
    replaces what was there. *)
Definition overWeight (existing supplied : option Z) : option Z :=
  match supplied with
  | Some v => Some v
  | None => existing
  end.

(** [updateListingPriorities]: creates the profile from
    [{...priorities, listingId}] when the listing has none. *)
Definition updateListingPriorities (listingId : Z)
    (priorities : PartialPriorities) (now : Z) (ps : t)
  : ListingPriorities * t :=
  match getListingPriorities listingId ps with
  | None =>
      createListingPriorities
        {| ip_listingId := listingId;
           ip_offerPrice := pp_offerPrice priorities;
           ip_netProceeds := pp_netProceeds priorities;
           ip_closingTimeline := pp_closingTimeline priorities;
           ip_contingencies := pp_contingencies priorities;
           ip_buyerQualification := pp_buyerQualification priorities |}
        now ps
  | Some existingPriorities =>
      let updatedPriorities :=
        {| lp_id := lp_id existingPriorities;
           lp_listingId :=
             over (lp_listingId existingPriorities) (pp_listingId priorities);
           lp_offerPrice :=
             overWeight (lp_offerPrice existingPriorities)
                        (pp_offerPrice priorities);
           lp_netProceeds :=
             overWeight (lp_netProceeds existingPriorities)
                        (pp_netProceeds priorities);
           lp_closingTimeline :=
             overWeight (lp_closingTimeline existingPriorities)
                        (pp_closingTimeline priorities);
           lp_contingencies :=
             overWeight (lp_contingencies existingPriorities)
                        (pp_contingencies priorities);
           lp_buyerQualification :=
             overWeight (lp_buyerQualification existingPriorities)
                        (pp_buyerQualification priorities);
           lp_createdAt := lp_createdAt existingPriorities |} in
      (updatedPriorities,
       {| listingPrioritiesData :=
            set (lp_id existingPriorities) updatedPriorities
                (listingPrioritiesData ps);
          currentPriorityId := currentPriorityId ps |})
  end.

(** The profile that both [POST /api/listings] and
    [GET /api/listings/:listingId/priorities] create. *)
Definition defaults (listingId : Z) : InsertListingPriorities :=
  {| ip_listingId := listingId;
     ip_offerPrice := Some 5;
     ip_netProceeds := Some 5;
     ip_closingTimeline := Some 5;
     ip_contingencies := Some 5;
     ip_buyerQualification := Some 5 |}.

End Priorities.

(** ** server/storage.ts: the user methods

    [usersData] and [currentUserId], as [Priorities.t]. *)
Module Users.
Import JS Schema MemStorage Routes.

Record User : Type := mkUser {
  usr_id : Z;
  usr_username : string;
  usr_email : string;
  usr_password : option string;
  usr_googleId : option string;
  usr_appleId : option string;
  usr_stripeCustomerId : option string;
  usr_createdAt : Z
}.

(** [InsertUser]: [id], [createdAt] and [stripeCustomerId] omitted. *)
Record InsertUser : Type := mkInsertUser {
  iusr_username : string;
  iusr_email : string;
  iusr_password : option string;
  iusr_googleId : option string;
  iusr_appleId : option string
}.

Record t : Type := mkUsers {
  usersData : Map User;
  currentUserId : Z
}.

Definition empty : t := {| usersData := []; currentUserId := 1 |}.

Definition getUser (id : Z) (us : t) : option User := get id (usersData us).

Definition getUserByUsername (username : string) (us : t) : option User :=
  List.find (fun user => String.eqb (usr_username user) username)
            (values (usersData us)).

Definition getUserByEmail (email : string) (us : t) : option User :=
  List.find (fun user => String.eqb (usr_email user) email)
            (values (usersData us)).

(** [user.googleId === googleId], the stored id being nullable. *)
Definition same_id (stored : option string) (id : string) : bool :=
  match stored with
  | Some v => String.eqb v id
  | None => false
  end.

Definition getUserByGoogleId (googleId : string) (us : t) : option User :=
  List.find (fun user => same_id (usr_googleId user) googleId)
            (values (usersData us)).

Definition getUserByAppleId (appleId : string) (us : t) : option User :=
  List.find (fun user => same_id (usr_appleId user) appleId)
            (values (usersData us)).

(** [createUser]: [{...insertUser, id, createdAt, stripeCustomerId: null}]. *)
Definition createUser (insertUser : InsertUser) (now : Z) (us : t)
  : User * t :=
  let id := currentUserId us in
  let user :=
    {| usr_id := id;
       usr_username := iusr_username insertUser;
       usr_email := iusr_email insertUser;
       usr_password := iusr_password insertUser;
       usr_googleId := iusr_googleId insertUser;
       usr_appleId := iusr_appleId insertUser;
       usr_stripeCustomerId := None;
       usr_createdAt := now |} in
  (user, {| usersData := set id user (usersData us); currentUserId := id + 1 |}).

(** [updateUserStripeInfo]: throws when the user is absent. *)
Definition updateUserStripeInfo (userId : Z) (stripeCustomerId : string)
    (us : t) : Outcome User * t :=
  match getUser userId us with
  | None => (Thrown "User not found", us)
  | Some user =>
      let updatedUser :=
        {| usr_id := usr_id user;
           usr_username := usr_username user;
           usr_email := usr_email user;
           usr_password := usr_password user;
           usr_googleId := usr_googleId user;
           usr_appleId := usr_appleId user;
           usr_stripeCustomerId := Some stripeCustomerId;
           usr_createdAt := usr_createdAt user |} in
      (Returned updatedUser,
       {| usersData := set userId updatedUser (usersData us);
          currentUserId := currentUserId us |})
  end.

End Users.

(** ** server/auth.ts: registration and the Google verify callback *)
Module Auth.
Import JS Schema MemStorage Routes Users.

Local Open Scope string_scope.

(** [POST /api/register], for a body that carries the three strings.
    [hashedPassword] is what [hashPassword] returned (it draws a random
    salt); the session login that follows is taken to succeed. *)
Definition post_register (username email hashedPassword : string) (now : Z)
    (us : Users.t) : Response User * Users.t :=
  match getUserByUsername username us with
  | Some _ => (Message 400 "Username already taken", us)
  | None =>
      match getUserByEmail email us with
      | Some _ => (Message 400 "Email already registered", us)
      | None =>
          let '(user, us') :=
            createUser
              {| iusr_username := username;
                 iusr_email := email;
                 iusr_password := Some hashedPassword;
                 iusr_googleId := None;
                 iusr_appleId := None |} now us in
          (Json 201 user, us')
      end
  end.

(** The two synchronous stretches of the handler, on either side of
    [await hashPassword(password)], which runs scrypt off the event loop:
    the lookups before it ([Some] is the refusal they end in), and the
    creation after it.  Another request may be served in between. *)
Definition register_lookups (username email : string) (us : Users.t)
  : option (Response User) :=
  match getUserByUsername username us with
  | Some _ => Some (Message 400 "Username already taken")
  | None =>
      match getUserByEmail email us with
      | Some _ => Some (Message 400 "Email already registered")
      | None => None
      end
  end.

Definition register_creates (username email hashedPassword : string)
    (now : Z) (us : Users.t) : Response User * Users.t :=
  let '(user, us') :=
    createUser
      {| iusr_username := username;
         iusr_email := email;
         iusr_password := Some hashedPassword;
         iusr_googleId := None;
         iusr_appleId := None |} now us in
  (Json 201 user, us').

(** The verify callback of the Google strategy.  [profileId] is
    [profile.id], [email] is [profile.emails?.[0].value] and [displayName]
    is [profile.displayName]; the result is what [done] is called with,
    [Thrown] for an error. *)
Definition google_verify (profileId : string) (email : option string)
    (displayName : string) (now : Z) (us : Users.t)
  : Outcome User * Users.t :=
  match getUserByGoogleId profileId us with
  | Some user => (Returned user, us)
  | None =>
      match email with
      | None | Some EmptyString =>
          (Thrown "No email found in Google profile", us)
      | Some address =>
          match getUserByEmail address us with
          | Some user => updateUserStripeInfo (usr_id user) profileId us
          | None =>
              let '(user, us') :=
                createUser
                  {| iusr_username := displayName;
                     iusr_email := address;
                     iusr_password := None;
                     iusr_googleId := Some profileId;
                     iusr_appleId := None |} now us in
              (Returned user, us')
          end
      end
  end.

End Auth.

(** ** server/openai.ts: the fallback of the extraction *)
Module OpenAI.
Import JS Schema MemStorage Routes.

Local Open Scope string_scope.

(** [getFallbackOffer]. *)
Definition getFallbackOffer (listing : Listing) : ExtractedOffer :=
  {| x_buyerName := "Extracted Buyer";
     x_buyerType := "pre-approved";
     x_price := (l_price listing + 10000)%Q;
     x_agentCommission := Some (6 # 100)%Q;
     x_closingTimelineDays := 30;
     x_contingencies := ["financing"; "inspection"; "appraisal"];
     x_notes :=
       "This is fallback data as document extraction failed. Please review document manually." |}.

End OpenAI.

(** ** server/routes.ts: the listing, offer-read, priority and usage handlers *)
Module RoutesRest.
Import JS Schema MemStorage Routes Listings Priorities.

Local Open Scope string_scope.

(** [POST /api/listings]: the listing, then its default priorities.
    [body] is the result of [insertListingSchema.parse], [None] when it
    throws a [ZodError]. *)
Definition post_listings (user : option Z) (body : option InsertListing)
    (now : Z) (s : MemStorage.t) (ps : Priorities.t)
  : Response Listing * (MemStorage.t * Priorities.t) :=
  match user with
  | None => (Message 401 "Unauthorized", (s, ps))
  | Some uid =>
      match body with
      | None => (Message 400 "Validation error", (s, ps))
      | Some validatedData =>
          let '(listing, s') := createListing validatedData uid now s in
          let '(_, ps') :=
            createListingPriorities (defaults (l_id listing)) now ps in
          (Json 201 listing, (s', ps'))
      end
  end.

(** [GET /api/listings]. *)
Definition get_listings (user : option Z) (s : MemStorage.t)
  : Response (list Listing) :=
  match user with
  | None => Message 401 "Unauthorized"
  | Some uid => Json 200 (getListings uid s)
  end.

(** [GET /api/listings/:id]. *)
Definition get_listing (user : option Z) (id : Z) (s : MemStorage.t)
  : Response Listing :=
  match user with
  | None => Message 401 "Unauthorized"
  | Some uid =>
      match getListing id s with
      | None => Message 404 "Listing not found"
      | Some listing =>
          if negb (l_userId listing =? uid)%Z then Message 403 "Forbidden"
          else Json 200 listing
      end
  end.

(** [PATCH /api/listings/:id]: the body goes to [updateListing]
    unvalidated. *)
Definition patch_listing (user : option Z) (id : Z) (body : ListingPatch)
    (s : MemStorage.t) : Response (option Listing) * MemStorage.t :=
  match user with
  | None => (Message 401 "Unauthorized", s)
  | Some uid =>
      match getListing id s with
      | None => (Message 404 "Listing not found", s)
      | Some listing =>
          if negb (l_userId listing =? uid)%Z then (Message 403 "Forbidden", s)
          else
            let '(updatedListing, s') := updateListing id body s in
            (Json 200 updatedListing, s')
      end
  end.

(** [GET /api/listings/:listingId/offers]. *)
Definition get_listing_offers (user : option Z) (listingId : Z)
    (s : MemStorage.t) : Response (list Offer) :=
  match user with
  | None => Message 401 "Unauthorized"
  | Some uid =>
      let forbidden :=
        Message 403
          "You don't have permission to view offers for this listing" in
      match getListing listingId s with
      | None => forbidden
      | Some listing =>
          if negb (l_userId listing =? uid)%Z then forbidden
          else Json 200 (getOffers listingId s)
      end
  end.

(** [GET /api/offers/:id]. *)
Definition get_offer (user : option Z) (id : Z) (s : MemStorage.t)
  : Response Offer :=
  match user with
  | None => Message 401 "Unauthorized"
  | Some uid =>
      match getOffer id s with
      | None => Message 404 "Offer not found"
      | Some offer =>
          let forbidden :=
            Message 403 "You don't have permission to view this offer" in
          match getListing (o_listingId offer) s with
          | None => forbidden
          | Some listing =>
              if negb (l_userId listing =? uid)%Z then forbidden
              else Json 200 offer
          end
      end
  end.

(** [GET /api/listings/:listingId/priorities]: the profile, created with
    the defaults when the listing has none. *)
Definition get_listing_priorities (user : option Z) (listingId : Z) (now : Z)
    (s : MemStorage.t) (ps : Priorities.t)
  : Response ListingPriorities * Priorities.t :=
  match user with
  | None => (Message 401 "Unauthorized", ps)
  | Some uid =>
      let forbidden :=
        (Message 403
           "You don't have permission to view priorities for this listing",
         ps) in
      match getListing listingId s with
      | None => forbidden
      | Some listing =>
          if negb (l_userId listing =? uid)%Z then forbidden
          else
            match getListingPriorities listingId ps with
            | Some priorities => (Json 200 priorities, ps)
            | None =>
                let '(priorities, ps') :=
                  createListingPriorities (defaults listingId) now ps in
                (Json 200 priorities, ps')
            end
      end
  end.

(** [PATCH /api/listings/:listingId/priorities].  [body] is the result of
    [insertListingPrioritiesSchema.partial().parse], which runs after the
    ownership check. *)
Definition patch_listing_priorities (user : option Z) (listingId : Z)
    (body : option PartialPriorities) (now : Z) (s : MemStorage.t)
    (ps : Priorities.t) : Response ListingPriorities * Priorities.t :=
  match user with
  | None => (Message 401 "Unauthorized", ps)
  | Some uid =>
      let forbidden :=
        (Message 403
           "You don't have permission to update priorities for this listing",
         ps) in
      match getListing listingId s with
      | None => forbidden
      | Some listing =>
          if negb (l_userId listing =? uid)%Z then forbidden
          else
            match body with
            | None => (Message 400 "Validation error", ps)
            | Some validatedData =>
                let '(priorities, ps') :=
                  updateListingPriorities listingId validatedData now ps in
                (Json 200 priorities, ps')
            end
      end
  end.

(** [GET /api/usage]. *)
Definition get_usage (user : option Z) (s : MemStorage.t)
  : Response (list UsageEvent) :=
  match user with
  | None => Message 401 "Unauthorized"
  | Some uid => Json 200 (getUserUsageEvents uid s)
  end.

End RoutesRest.

(** ** client: the computations of the offer card and of the counter-offer
    form *)
Module Client.
Import JS Schema MemStorage Routes.

Local Open Scope string_scope.

(** [riskLevel] of [OfferCard]. *)
Definition riskLevel (offer : Offer) : string :=
  if (8 <=? o_riskScore offer)%Z then "Low"
  else if (5 <=? o_riskScore offer)%Z then "Medium"
  else "High".

(** The "Loan Balance" line of the card's calculation breakdown:
    [priceValue - agentCommissionValue - netProceedsValue], with
    [agentCommissionValue = Number(offer.agentCommission) || 0]. *)
Definition loanBalanceLine (offer : Offer) : Q :=
  let priceValue := o_price offer in
  let netProceedsValue := o_netProceeds offer in
  let agentCommissionValue := orQ (o_agentCommission offer) 0 in
  (priceValue - agentCommissionValue - netProceedsValue)%Q.

(** What [getPreviewCounterOffer] of [CounterOfferForm] returns:
    [{...formValues, id, netProceeds, riskScore, overallScore, createdAt,
    agentCommission}]. *)
Record Preview : Type := mkPreview {
  pv_formValues : InsertOffer;
  pv_id : Z;
  pv_netProceeds : Q;
  pv_riskScore : Z;
  pv_overallScore : option Z;
  pv_createdAt : Z;
  pv_agentCommission : Q
}.

(** [formValues.commissionType === "percent"]. *)
Definition is_percent (commissionType : option string) : bool :=
  match commissionType with
  | Some t => String.eqb t "percent"
  | None => false
  end.

(** [getPreviewCounterOffer]. *)
Definition getPreviewCounterOffer (originalOffer : Offer)
    (formValues : InsertOffer) (now : Z) : Preview :=
  let agentCommission := orQ (in_agentCommission formValues) 0 in
  let price := in_price formValues in
  let agentCommission :=
    if is_percent (in_commissionType formValues)
    then ((price * agentCommission) / 100)%Q
    else agentCommission in
  let netProceeds := (price - agentCommission)%Q in
  let contingencies :=
    match in_contingencies formValues with
    | Some l => l
    | None => []
    end in
  let riskScore := Z.max 1 (10 - Z.of_nat (List.length contingencies) * 2) in
  let overallScore :=
    match in_closingTimelineDays formValues with
    | Some d =>
        Some (Math_round ((price / 1000000 * 40) + (inject_Z riskScore * 5)
                          + (60 - d / 2))%Q)
    | None => None
    end in
  {| pv_formValues := formValues;
     pv_id := o_id originalOffer + 1000;
     pv_netProceeds := netProceeds;
     pv_riskScore := riskScore;
     pv_overallScore := overallScore;
     pv_createdAt := now;
     pv_agentCommission := agentCommission |}.

End Client.

(** ** Stores that the methods can reach, and what they keep *)
Module Reach.
Import JS Schema MemStorage Routes Created Listings Priorities Users.

(** A call of a method of [MemStorage] that writes one of the maps of
    [MemStorage.t]. *)
Inductive Call : Type :=
| CreateListing (listing : InsertListing) (userId now : Z)
| UpdateListing (id : Z) (listing : ListingPatch)
| CreateOffer (offer : OfferInput) (userId now : Z)
| UpdateOffer (id : Z) (offer : PartialInsertOffer)
| CreateUsageEvent (event : InsertUsageEvent) (now : Z)
| MarkUsageEventAsProcessed (id : Z)
    (stripeInvoiceId stripeUsageRecordId : option string).

Definition call (c : Call) (s : MemStorage.t) : MemStorage.t :=
  match c with
  | CreateListing listing userId now => snd (createListing listing userId now s)
  | UpdateListing id listing => snd (updateListing id listing s)
  | CreateOffer offer userId now => snd (createOffer offer userId now s)
  | UpdateOffer id offer => snd (updateOffer id offer s)
  | CreateUsageEvent event now => snd (createUsageEvent event now s)
  | MarkUsageEventAsProcessed id invoice record =>
      snd (markUsageEventAsProcessed id invoice record s)
  end.

(** An [updateListing] whose input carries no [id], or the id it is
    applied to; every other call. *)
Definition keeps_key (c : Call) : Prop :=
  match c with
  | UpdateListing id listing => over id (pl_id listing) = id
  | _ => True
  end.

(** The store after a sequence of calls on a fresh [MemStorage]. *)
Definition after (calls : list Call) : MemStorage.t :=
  List.fold_left (fun s c => call c s) calls MemStorage.empty.

(** The keys of a map are the ids [1 .. next - 1] in order, and every
    record sits under its own id. *)
Definition keyed {V} (id_of : V -> Z) (m : Map V) (next : Z) : Prop :=
  List.map fst m = List.map Z.of_nat (List.seq 1 (List.length m)) /\
  next = Z.of_nat (List.length m) + 1 /\
  List.Forall (fun entry => id_of (snd entry) = fst entry) m.

Definition well_keyed (s : MemStorage.t) : Prop :=
  keyed l_id (listingsData s) (currentListingId s) /\
  keyed o_id (offersData s) (currentOfferId s) /\
  keyed u_id (usageEventsData s) (currentUsageEventId s).

(** The key by which [getOfferHistory] sorts. *)
Definition version_key (o : Offer) : Z := orZ (o_versionNumber o) 1.

(** The id at which [getOfferHistory] stops for [offer], and the offers it
    collects there. *)
Definition root_id (offer : Offer) : Z :=
  orZ (o_parentOfferId offer) (o_id offer).

Definition in_thread (root : Z) (o : Offer) : bool :=
  strict_eq (o_parentOfferId o) root || (o_id o =? root).

(** [m] is the first element of [l] that no element of [l] beats: it
    beats every element before it and none after it beats it. *)
Definition first_best {A} (beats : A -> A -> bool) (l : list A) (m : A)
  : Prop :=
  exists before rest,
    l = before ++ m :: rest /\
    (forall x, List.In x before -> beats m x = true) /\
    (forall x, List.In x rest -> beats x m = false).

(** The comparisons of the insights loop. *)
Definition beats_overall (a b : Offer) : bool :=
  gt_nan (o_overallScore a) (o_overallScore b).

Definition beats_risk (a b : Offer) : bool :=
  o_riskScore a >? o_riskScore b.

Definition beats_net (a b : Offer) : bool :=
  Qlt_bool (o_netProceeds b) (o_netProceeds a).

(** A weight of the profile that [getListingPriorities] finds for the
    listing, [undefined] when it finds none. *)
Definition previous (weight : ListingPriorities -> option Z) (listingId : Z)
    (ps : Priorities.t) : option Z :=
  match getListingPriorities listingId ps with
  | Some existing => weight existing
  | None => None
  end.

(** No two users share a username or an email. *)
Definition unique_accounts (us : Users.t) : Prop :=
  List.NoDup (List.map usr_username (values (usersData us))) /\
  List.NoDup (List.map usr_email (values (usersData us))).

(** Every field of a listing holds the value the input supplied for it, or
    the value it held when the input has no key for it. *)
Definition listing_fields_follow (before after : Listing)
    (update : ListingPatch) : Prop :=
  follows (l_id before) (l_id after) (pl_id update) /\
  follows (l_userId before) (l_userId after) (pl_userId update) /\
  follows (l_address before) (l_address after) (pl_address update) /\
  follows (l_city before) (l_city after) (pl_city update) /\
  follows (l_state before) (l_state after) (pl_state update) /\
  follows (l_zipCode before) (l_zipCode after) (pl_zipCode update) /\
  follows (l_price before) (l_price after) (pl_price update) /\
  follows (l_loanBalance before) (l_loanBalance after)
          (pl_loanBalance update) /\
  follows (l_bedrooms before) (l_bedrooms after) (pl_bedrooms update) /\
  follows (l_bathrooms before) (l_bathrooms after) (pl_bathrooms update) /\
  follows (l_sqft before) (l_sqft after) (pl_sqft update) /\
  follows (l_description before) (l_description after)
          (pl_description update) /\
  follows (l_status before) (l_status after) (pl_status update) /\
  follows (l_listedDate before) (l_listedDate after)
          (pl_listedDate update) /\
  follows (l_imageUrl before) (l_imageUrl after) (pl_imageUrl update) /\
  follows (l_createdAt before) (l_createdAt after) (pl_createdAt update).

(** The keys of the listing map are the ids [1 .. next - 1] in order. *)
Definition listing_keys_in_order (s : MemStorage.t) : Prop :=
  List.map fst (listingsData s)
  = List.map Z.of_nat (List.seq 1 (List.length (listingsData s))) /\
  currentListingId s = Z.of_nat (List.length (listingsData s)) + 1.

(** Registrations served one at a time on a fresh store: each request is
    answered before the next one is taken up, so nothing runs between the
    lookups and the creation of a request. *)
Definition registered (requests : list (string * string * string * Z))
  : Users.t :=
  List.fold_left
    (fun us '(username, email, hashed, now) =>
       snd (Auth.post_register username email hashed now us))
    requests Users.empty.

(** Two registrations that overlap: the second is taken up while the
    first awaits its hash, so both do their lookups on the store as it
    was, and the creations follow.  A request that its lookups refuse
    creates nothing. *)
Definition overlapped (first second : string * string * string * Z)
    (us : Users.t) : Users.t :=
  let '(username1, email1, hashed1, now1) := first in
  let '(username2, email2, hashed2, now2) := second in
  let lookups1 := Auth.register_lookups username1 email1 us in
  let lookups2 := Auth.register_lookups username2 email2 us in
  let us1 :=
    match lookups1 with
    | None => snd (Auth.register_creates username1 email1 hashed1 now1 us)
    | Some _ => us
    end in
  match lookups2 with
  | None => snd (Auth.register_creates username2 email2 hashed2 now2 us1)
  | Some _ => us1
  end.

End Reach.

(** ** Further concrete inputs *)
Module Examples.
Import JS Schema MemStorage Routes Listings Priorities Users Scenario.

Local Open Scope string_scope.

(** A patch that raises the price weight to 9 and supplies nothing else. *)
Definition price_first : PartialPriorities :=
  {| pp_listingId := None;
     pp_offerPrice := Some 9;
     pp_netProceeds := None;
     pp_closingTimeline := None;
     pp_contingencies := None;
     pp_buyerQualification := None |}.

(** A [PATCH] body that changes the loan balance and nothing else. *)
Definition new_balance (balance : Q) : ListingPatch :=
  {| pl_id := None;
     pl_userId := None;
     pl_address := None;
     pl_city := None;
     pl_state := None;
     pl_zipCode := None;
     pl_price := None;
     pl_loanBalance := Some (Some balance);
     pl_bedrooms := None;
     pl_bathrooms := None;
     pl_sqft := None;
     pl_description := None;
     pl_status := None;
     pl_listedDate := None;
     pl_imageUrl := None;
     pl_createdAt := None |}.

(** One registered account. *)
Definition one_account : Users.t :=
  snd (Auth.post_register "rebecca" "rebecca@example.com" "5e1f.a0c3" 50
                          Users.empty).

(** The first scenario's offer as [createOffer] returns it for a direct
    call. *)
Definition robinson_offer : Offer :=
  fst (createOffer (bare robinson) agent 101 listed).

End Examples.
(** * Properties *)

Import JS Schema MemStorage Routes Created.

(** ** The map *)

Lemma get_set_same {V} (k : Z) (v : V) (m : Map V) :
  get k (set k v m) = Some v.
Proof.
  induction m as [| [k' v'] rest IH]; simpl.
  - now rewrite Z.eqb_refl.
  - destruct (k' =? k) eqn:E; simpl.
    + now rewrite Z.eqb_refl.
    + now rewrite E.
Qed.

Lemma get_set_other {V} (k k' : Z) (v : V) (m : Map V) :
  k' <> k -> get k' (set k v m) = get k' m.
Proof.
  intros Hne.
  induction m as [| [j w] rest IH]; simpl.
  - destruct (k =? k') eqn:E; [apply Z.eqb_eq in E; congruence | reflexivity].
  - destruct (j =? k) eqn:E; simpl.
    + apply Z.eqb_eq in E; subst j.
      destruct (k =? k') eqn:E'; [apply Z.eqb_eq in E'; congruence |].
      reflexivity.
    + destruct (j =? k'); [reflexivity | exact IH].
Qed.

(** ** Numbers *)

Lemma Qlt_bool_iff (a b : Q) : Qlt_bool a b = true <-> (a < b)%Q.
Proof.
  unfold Qlt_bool. rewrite negb_true_iff.
  split; intros H.
  - apply Qnot_le_lt. intros Hle. apply Qle_bool_iff in Hle. congruence.
  - destruct (Qle_bool b a) eqn:E; [| reflexivity].
    apply Qle_bool_iff in E. exfalso. apply (Qlt_not_le _ _ H E).
Qed.

Lemma truthy_pos (c : Q) : (0 < c)%Q -> truthy c = true.
Proof.
  intros H. unfold truthy. rewrite negb_true_iff.
  destruct (Qeq_bool c 0) eqn:E; [| reflexivity].
  apply Qeq_bool_iff in E. rewrite E in H. exfalso. apply (Qlt_irrefl _ H).
Qed.

(** [Math.round] returns the integer within one half of its argument, the
    upper one on a tie. *)
Lemma Math_round_nearest (x : Q) :
  (inject_Z (Math_round x) - (1 # 2) <= x)%Q /\
  (x < inject_Z (Math_round x) + (1 # 2))%Q.
Proof.
  unfold Math_round.
  pose proof (Qfloor_le (x + (1 # 2))%Q) as Hle.
  pose proof (Qlt_floor (x + (1 # 2))%Q) as Hlt.
  rewrite inject_Z_plus in Hlt. change (inject_Z 1) with 1%Q in Hlt.
  set (f := inject_Z (Qfloor (x + (1 # 2)))) in *. clearbody f.
  split; lra.
Qed.

(** ** The handler, when it accepts *)

Lemma post_offers_accepts (uid : Z) (body : InsertOffer) (now : Z)
    (s : MemStorage.t) (listing : Listing) :
  getListing (in_listingId body) s = Some listing ->
  l_userId listing = uid ->
  stored_by_post uid body now s
  = Some (fst (createOffer (offerWithNetProceeds listing body) uid now s)).
Proof.
  intros Hl Hu.
  unfold stored_by_post, post_offers.
  rewrite Hl, Hu, Z.eqb_refl. simpl.
  unfold getOffer. simpl.
  apply get_set_same.
Qed.

Import Scenario.

(** ** Net proceeds *)

(** [createOffer] computes [netProceeds] from the price and the commission
    as supplied, whatever [netProceeds] its argument carries. *)
Lemma createOffer_netProceeds (offer : OfferInput) (userId now : Z)
    (s : MemStorage.t) :
  o_netProceeds (fst (createOffer offer userId now s))
  = (in_price (fields offer)
     - commissionOf (in_price (fields offer))
                    (in_agentCommission (fields offer)))%Q.
Proof. reflexivity. Qed.

(** C1.  The claim: the stored [netProceeds] of every created offer is
    price - loan balance - resolved commission.  On the first scenario
    (price 700000, commission 3 percent, loan balance 200000) the handler
    computes 479000 and hands it over, and the record that [createOffer]
    persists holds 699997: the loan balance is not deducted and the
    commission is deducted as the raw 3. *)
Theorem stored_net_proceeds_scenario :
  option_map l_loanBalance (getListing 1 listed) = Some (Some 200000%Q) /\
  (resolveAgentCommission 700000 (Some 3%Q) == 21000)%Q /\
  (exists listing given,
     getListing 1 listed = Some listing /\
     given_netProceeds (offerWithNetProceeds listing robinson) = Some given /\
     (given == 700000 - 200000 - 21000)%Q) /\
  exists offer,
    stored_by_post agent robinson 101 listed = Some offer /\
    (o_netProceeds offer == 699997)%Q /\
    ~ (o_netProceeds offer == 700000 - 200000 - 21000)%Q.
Proof.
  split; [reflexivity |].
  split; [reflexivity |].
  split.
  - eexists; eexists. split; [reflexivity |]. split; reflexivity.
  - eexists. split; [reflexivity |]. split; [reflexivity |].
    intros H. vm_compute in H. discriminate H.
Qed.

(** ** Commission units *)

(** The commission block on its own: a commission [c] with [0 < c <= 20]
    is read as a percentage of the price and resolved to [price * c / 100],
    a commission above 20 is read as dollars and kept, and
    [routeNetProceeds], the value each handler computes, deducts the
    resolved amount. *)
Theorem commission_unit_resolution (price c : Q) (listing : Listing) :
  ((0 < c)%Q /\ (c <= 20)%Q ->
     (resolveAgentCommission price (Some c) == price * c / 100)%Q /\
     (routeNetProceeds listing price (Some c)
      == price - orQ (l_loanBalance listing) 0 - price * c / 100)%Q) /\
  ((20 < c)%Q ->
     resolveAgentCommission price (Some c) = c /\
     (routeNetProceeds listing price (Some c)
      == price - orQ (l_loanBalance listing) 0 - c)%Q).
Proof.
  unfold routeNetProceeds, resolveAgentCommission.
  split.
  - intros [Hpos Hle]. simpl.
    rewrite (truthy_pos c Hpos).
    apply Qlt_bool_iff in Hpos. apply Qle_bool_iff in Hle.
    rewrite Hpos, Hle. simpl. split; reflexivity.
  - intros Hgt. simpl.
    assert (Hpos : (0 < c)%Q) by lra.
    rewrite (truthy_pos c Hpos).
    destruct (Qle_bool c 20) eqn:E.
    + apply Qle_bool_iff in E. lra.
    + rewrite andb_false_r. split; reflexivity.
Qed.

Lemma commission_unit_resolution_witness :
  (resolveAgentCommission 700000 (Some 3%Q) == 700000 * 3 / 100)%Q /\
  resolveAgentCommission 700000 (Some 25000%Q) = 25000%Q.
Proof.
  split.
  - refine (proj1 (proj1 (commission_unit_resolution 700000 3
                            (fst (createListing home agent 100 empty))) _)).
    split; [reflexivity | discriminate].
  - refine (proj1 (proj2 (commission_unit_resolution 700000 25000
                            (fst (createListing home agent 100 empty))) _)).
    reflexivity.
Defined.


(** ** Risk score *)

(** C3.  The stored [riskScore] of an offer with [n] contingencies is
    [max(1, 10 - 2n)]: within 1..10, 10 for none, 1 from five on, and never
    greater for a longer list. *)
Theorem risk_score_contract (offer : OfferInput) (userId now : Z)
    (s : MemStorage.t) :
  let stored := fst (createOffer offer userId now s) in
  let n := contingency_count (fields offer) in
  getOffer (o_id stored) (snd (createOffer offer userId now s)) = Some stored /\
  o_riskScore stored = Z.max 1 (10 - 2 * n) /\
  1 <= o_riskScore stored <= 10 /\
  (n = 0 -> o_riskScore stored = 10) /\
  (5 <= n -> o_riskScore stored = 1) /\
  (forall offer' userId' now' s',
     n <= contingency_count (fields offer') ->
     o_riskScore (fst (createOffer offer' userId' now' s'))
     <= o_riskScore stored).
Proof.
  assert (Hrisk : forall o u t st,
            o_riskScore (fst (createOffer o u t st))
            = Z.max 1 (10 - 2 * contingency_count (fields o))).
  { intros o u t st. unfold createOffer, contingency_count, riskScoreOf.
    cbn [fst o_riskScore].
    destruct (in_contingencies (fields o)); cbn [List.length]; lia. }
  assert (Hcount : forall o, 0 <= contingency_count o).
  { intros o. unfold contingency_count.
    destruct (in_contingencies o); lia. }
  intros stored n. subst stored.
  split.
  { unfold createOffer, getOffer. simpl. apply get_set_same. }
  split; [apply Hrisk |].
  rewrite Hrisk. pose proof (Hcount (fields offer)) as Hn. fold n in Hn |- *.
  repeat split; try lia.
  intros offer' userId' now' s' Hle. rewrite Hrisk. lia.
Qed.

Lemma risk_score_contract_witness :
  o_riskScore (fst (createOffer (bare no_commission) agent 101 listed)) = 8 /\
  o_riskScore (fst (createOffer (bare slow_close) agent 101 listed)) = 1 /\
  o_riskScore (fst (createOffer (bare slow_close) agent 101 listed))
  <= o_riskScore (fst (createOffer (bare no_commission) agent 101 listed)).
Proof.
  pose proof (risk_score_contract (bare no_commission) agent 101 listed) as H.
  pose proof (risk_score_contract (bare slow_close) agent 101 listed) as H'.
  cbv zeta in H, H'.
  destruct H as (_ & Hval & _ & _ & _ & Hmono).
  destruct H' as (_ & _ & _ & _ & Hfloor & _).
  split; [exact Hval |].
  split.
  - apply Hfloor. vm_compute. discriminate.
  - apply Hmono. vm_compute. discriminate.
Defined.

(** ** Overall score *)

(** C4.  With a numeric closing timeline [d] the stored [overallScore] is
    [round(price / 1000000 * 40 + riskScore * 5 + (60 - d / 2))], the
    integer within one half of that sum; nothing clamps it: the first
    scenario scores 113, and a low, slow, contingent offer scores below
    zero. *)
Theorem overall_score_contract :
  (forall (offer : OfferInput) (userId now : Z) (s : MemStorage.t) (d : Q),
     in_closingTimelineDays (fields offer) = Some d ->
     let stored := fst (createOffer offer userId now s) in
     let sum := (in_price (fields offer) / 1000000 * 40
                 + inject_Z (o_riskScore stored) * 5 + (60 - d / 2))%Q in
     getOffer (o_id stored) (snd (createOffer offer userId now s))
     = Some stored /\
     o_overallScore stored = Some (Math_round sum) /\
     (inject_Z (Math_round sum) - (1 # 2) <= sum)%Q /\
     (sum < inject_Z (Math_round sum) + (1 # 2))%Q) /\
  (exists offer userId now s score,
     o_overallScore (fst (createOffer offer userId now s)) = Some score /\
     100 < score) /\
  (exists offer userId now s score,
     o_overallScore (fst (createOffer offer userId now s)) = Some score /\
     score < 0).
Proof.
  split; [| split].
  - intros offer userId now s d Hd stored sum.
    split.
    { unfold stored, createOffer, getOffer. simpl. apply get_set_same. }
    split.
    { unfold stored, sum, createOffer, overallScoreOf. cbn [fst o_overallScore
        o_riskScore]. rewrite Hd. reflexivity. }
    apply Math_round_nearest.
  - exists (bare robinson), agent, 101, listed, 113.
    split; [reflexivity | lia].
  - exists (bare slow_close), agent, 101, listed, (-131).
    split; [reflexivity | lia].
Qed.

Lemma overall_score_contract_witness :
  o_overallScore (fst (createOffer (bare robinson) agent 101 listed))
  = Some 113.
Proof.
  pose proof (proj1 overall_score_contract (bare robinson) agent 101 listed
                30%Q eq_refl) as H.
  cbv zeta in H.
  destruct H as (_ & Hscore & _).
  rewrite Hscore. reflexivity.
Defined.

(** ** Offer history *)

(** C5.  The claim: queried with any version of a thread v1 -> v2 -> v3,
    the history returns the whole thread.  [getOfferHistory] follows one
    [parentOfferId] link and no further, and collects the offers whose
    parent is the offer it stopped at: on the thread built by countering
    the first scenario twice, versions 1 and 2 answer with [v1; v2] and
    version 3 with [v2; v3].  An absent id is answered with 404. *)
Theorem history_scenario :
  List.map (fun o => (o_id o, o_parentOfferId o, o_versionNumber o))
           (values (offersData thread))
  = [(1, None, Some 1); (2, Some 1, Some 2); (3, Some 2, Some 3)] /\
  get_offer_history (Some agent) 1 thread
  = Json 200 (getOfferHistory 1 thread) /\
  get_offer_history (Some agent) 2 thread
  = Json 200 (getOfferHistory 2 thread) /\
  get_offer_history (Some agent) 3 thread
  = Json 200 (getOfferHistory 3 thread) /\
  List.map o_id (getOfferHistory 1 thread) = [1; 2] /\
  List.map o_id (getOfferHistory 2 thread) = [1; 2] /\
  List.map o_id (getOfferHistory 3 thread) = [2; 3] /\
  get_offer_history (Some agent) 4 thread = Message 404 "Offer not found".
Proof. repeat split; reflexivity. Qed.

(** ** Insights *)

(** With one offer on the listing the handler reads [offers[1]], which is
    [undefined]; the [TypeError] is caught and answered with 500. *)
Lemma insights_single_offer (toLocaleString : Q -> string) (uid listingId : Z)
    (s : MemStorage.t) (listing : Listing) (only : Offer) :
  getListing listingId s = Some listing ->
  l_userId listing = uid ->
  getOffers listingId s = [only] ->
  get_listing_insights toLocaleString (Some uid) listingId s
  = Message 500 "Failed to generate insights".
Proof.
  intros Hl Hu Ho.
  unfold get_listing_insights.
  rewrite Hl, Hu, Z.eqb_refl, Ho. simpl.
  unfold prepareInsights.
  destruct (scan [only] only) as [[b r] h].
  destruct (contingencyCount r); reflexivity.
Qed.

(** C6.  The claim: with exactly one offer the insights do not fail and the
    recommendation names the buyer.  On the listing that holds the first
    scenario's offer alone the handler answers 500, "Failed to generate
    insights", whatever the number formatting. *)
Theorem insights_single_offer_scenario :
  List.map o_buyerName (getOffers 1 one_offer) = ["Robinson"%string] /\
  forall toLocaleString : Q -> string,
    get_listing_insights toLocaleString (Some agent) 1 one_offer
    = Message 500 "Failed to generate insights".
Proof.
  split; [reflexivity |].
  intros f.
  eapply insights_single_offer; reflexivity.
Qed.

(** C7.  For a listing with no offer the owner is answered, with status
    200, the recommendation "No offers to analyze yet" and the three other
    fields null. *)
Theorem insights_no_offers (toLocaleString : Q -> string) (uid listingId : Z)
    (s : MemStorage.t) (listing : Listing) :
  getListing listingId s = Some listing ->
  l_userId listing = uid ->
  getOffers listingId s = [] ->
  get_listing_insights toLocaleString (Some uid) listingId s
  = Json 200 {| recommendation := "No offers to analyze yet";
                riskAssessment := None;
                netProceedsComparison := None;
                negotiationOpportunities := None |}.
Proof.
  intros Hl Hu Ho.
  unfold get_listing_insights.
  rewrite Hl, Hu, Z.eqb_refl, Ho. reflexivity.
Qed.

Lemma insights_no_offers_witness :
  get_listing_insights (fun _ => EmptyString) (Some agent) 1 listed
  = Json 200 {| recommendation := "No offers to analyze yet";
                riskAssessment := None;
                netProceedsComparison := None;
                negotiationOpportunities := None |}.
Proof.
  apply (insights_no_offers (fun _ => EmptyString) agent 1 listed
           (fst (createListing home agent 100 empty)));
    reflexivity.
Defined.

(** ** The stored commission *)

(** C8, as stated: the persisted [agentCommission] of a percentage input is
    the resolved dollar amount.  It fails on the first scenario, where the
    record keeps the 3 that was supplied and 700000 * 3 / 100 is 21000. *)
Lemma stored_commission_resolved_counterexample :
  ~ (forall (uid : Z) (body : InsertOffer) (now : Z) (s : MemStorage.t)
            (listing : Listing) (c : Q) (offer : Offer),
       getListing (in_listingId body) s = Some listing ->
       l_userId listing = uid ->
       in_agentCommission body = Some c ->
       (0 < c)%Q /\ (c <= 20)%Q ->
       stored_by_post uid body now s = Some offer ->
       exists q, o_agentCommission offer = Some q /\
                 (q == in_price body * c / 100)%Q).
Proof.
  intros H.
  assert (Hpercent : (0 < 3)%Q /\ (3 <= 20)%Q) by (split; lra).
  destruct (H agent robinson 101 listed
              (fst (createListing home agent 100 empty)) 3%Q
              (fst (createOffer
                      (offerWithNetProceeds
                         (fst (createListing home agent 100 empty)) robinson)
                      agent 101 listed))
              eq_refl eq_refl eq_refl Hpercent eq_refl)
    as (q & Hq & Heq).
  vm_compute in Hq. injection Hq as <-.
  vm_compute in Heq. discriminate Heq.
Qed.

(** C8, amended.  The persisted record keeps the commission as it was
    supplied, a percentage staying the percentage, next to the
    [commissionType] tag that came with it. *)
Theorem stored_commission_as_supplied (uid : Z) (body : InsertOffer) (now : Z)
    (s : MemStorage.t) (listing : Listing) :
  getListing (in_listingId body) s = Some listing ->
  l_userId listing = uid ->
  exists offer,
    stored_by_post uid body now s = Some offer /\
    o_agentCommission offer = in_agentCommission body /\
    o_commissionType offer = in_commissionType body.
Proof.
  intros Hl Hu.
  eexists. split; [exact (post_offers_accepts uid body now s listing Hl Hu) |].
  split; reflexivity.
Qed.

Lemma stored_commission_as_supplied_witness :
  exists offer,
    stored_by_post agent robinson 101 listed = Some offer /\
    o_agentCommission offer = Some 3%Q /\
    o_commissionType offer = Some "percent"%string.
Proof.
  exact (stored_commission_as_supplied agent robinson 101 listed
           (fst (createListing home agent 100 empty)) eq_refl eq_refl).
Defined.

(** ** The default commission *)

(** C9.  When the input carries no [agentCommission], the stored
    [netProceeds] is the price less six percent of the price. *)
Theorem default_commission_six_percent (uid : Z) (body : InsertOffer)
    (now : Z) (s : MemStorage.t) (listing : Listing) :
  getListing (in_listingId body) s = Some listing ->
  l_userId listing = uid ->
  in_agentCommission body = None ->
  commissionOf (in_price body) (in_agentCommission body)
  = ((6 # 100) * in_price body)%Q /\
  exists offer,
    stored_by_post uid body now s = Some offer /\
    (o_netProceeds offer == in_price body - (6 # 100) * in_price body)%Q.
Proof.
  intros Hl Hu Hc.
  split; [rewrite Hc; reflexivity |].
  eexists. split; [exact (post_offers_accepts uid body now s listing Hl Hu) |].
  rewrite createOffer_netProceeds.
  cbn [fields offerWithNetProceeds]. rewrite Hc. reflexivity.
Qed.

Lemma default_commission_six_percent_witness :
  exists offer,
    stored_by_post agent no_commission 101 listed = Some offer /\
    (o_netProceeds offer == 700000 - (6 # 100) * 700000)%Q.
Proof.
  exact (proj2 (default_commission_six_percent agent no_commission 101 listed
                  (fst (createListing home agent 100 empty))
                  eq_refl eq_refl eq_refl)).
Defined.

(** ** Updates *)

Lemma set_keys_present {V} (k : Z) (v w : V) (m : Map V) :
  get k m = Some w -> List.map fst (set k v m) = List.map fst m.
Proof.
  induction m as [| [j x] rest IH]; simpl; [discriminate |].
  destruct (j =? k) eqn:E; simpl.
  - intros _. apply Z.eqb_eq in E. now subst j.
  - intros H. now rewrite IH.
Qed.

(** C10.  [updateOffer] on an absent id returns [undefined] and leaves the
    store as it was.  On a stored offer it writes back a record in which
    each supplied field holds the supplied value and every other field,
    the computed [netProceeds], [riskScore] and [overallScore] among them,
    holds what it held; nothing else in the store moves.  So an offer that
    is repriced after its creation keeps the three values computed from the
    price it was created with. *)
Theorem update_offer_frame :
  (forall (id : Z) (offer : PartialInsertOffer) (s : MemStorage.t),
     match getOffer id s with
     | None => updateOffer id offer s = (None, s)
     | Some existing =>
         exists updated s',
           updateOffer id offer s = (Some updated, s') /\
           getOffer id s' = Some updated /\
           same_computed existing updated /\
           fields_follow existing updated offer /\
           same_elsewhere id s s'
     end) /\
  (forall (input : OfferInput) (userId now : Z) (s : MemStorage.t) (price : Q),
     let created := fst (createOffer input userId now s) in
     let s1 := snd (createOffer input userId now s) in
     exists updated s2,
       updateOffer (o_id created) (reprice price) s1 = (Some updated, s2) /\
       getOffer (o_id created) s2 = Some updated /\
       o_price updated = price /\
       o_netProceeds updated
       = (in_price (fields input)
          - commissionOf (in_price (fields input))
                         (in_agentCommission (fields input)))%Q /\
       o_riskScore updated
       = Z.max 1 (10 - 2 * contingency_count (fields input)) /\
       o_overallScore updated = o_overallScore created).
Proof.
  assert (Hframe : forall id offer s,
            match getOffer id s with
            | None => updateOffer id offer s = (None, s)
            | Some existing =>
                exists updated s',
                  updateOffer id offer s = (Some updated, s') /\
                  getOffer id s' = Some updated /\
                  same_computed existing updated /\
                  fields_follow existing updated offer /\
                  same_elsewhere id s s'
            end).
  { intros id offer s. unfold updateOffer.
    destruct (getOffer id s) as [existing |] eqn:Hget; [| reflexivity].
    eexists; eexists. split; [reflexivity |].
    split; [unfold getOffer; simpl; apply get_set_same |].
    split; [repeat split |].
    split.
    - unfold fields_follow, follows, spread, over. simpl.
      repeat split;
        match goal with
        | |- match ?x with _ => _ end => destruct x; reflexivity
        end.
    - unfold same_elsewhere, getOffer. simpl.
      split; [intros other Hne; now apply get_set_other |].
      split; [exact (set_keys_present _ _ _ _ Hget) |].
      repeat split. }
  split; [exact Hframe |].
  intros input userId now s price created s1.
  pose proof (Hframe (o_id created) (reprice price) s1) as H.
  assert (Hget : getOffer (o_id created) s1 = Some created).
  { unfold created, s1, createOffer, getOffer. simpl. apply get_set_same. }
  rewrite Hget in H.
  destruct H as (updated & s2 & Hupd & Hread & Hcomp & Hfields & _).
  exists updated, s2.
  destruct Hcomp as (Hnet & Hrisk & Hall & _).
  destruct Hfields as (_ & _ & _ & _ & _ & _ & Hprice & _).
  simpl in Hprice.
  split; [exact Hupd |]. split; [exact Hread |]. split; [exact Hprice |].
  split; [rewrite Hnet; reflexivity |].
  split; [| exact Hall].
  rewrite Hrisk.
  unfold created, createOffer, contingency_count, riskScoreOf.
  cbn [fst o_riskScore].
  destruct (in_contingencies (fields input)); cbn [List.length]; lia.
Qed.

Lemma update_offer_frame_witness :
  exists updated s2,
    updateOffer 1 (reprice 650000)
                (snd (createOffer (bare robinson) agent 101 listed))
    = (Some updated, s2) /\
    getOffer 1 s2 = Some updated /\
    o_price updated = 650000%Q /\
    (o_netProceeds updated == 699997)%Q /\
    o_riskScore updated = 8 /\
    o_overallScore updated = Some 113.
Proof.
  destruct (proj2 update_offer_frame (bare robinson) agent 101 listed
              650000%Q)
    as (updated & s2 & Hupd & Hread & Hprice & Hnet & Hrisk & Hall).
  exists updated, s2.
  split; [exact Hupd |]. split; [exact Hread |]. split; [exact Hprice |].
  split; [rewrite Hnet; reflexivity |].
  split; [rewrite Hrisk; reflexivity | rewrite Hall; reflexivity].
Defined.

(** * Further properties of the store and of the handlers *)

Import Listings Priorities Users Auth OpenAI RoutesRest Client Reach Examples.

(** ** The map, continued *)

Lemma get_In {V} (k : Z) (v : V) (m : Map V) :
  get k m = Some v -> List.In (k, v) m.
Proof.
  induction m as [| [j w] rest IH]; simpl; [discriminate |].
  destruct (j =? k) eqn:E.
  - intros H. injection H as <-. apply Z.eqb_eq in E. subst j. now left.
  - intros H. right. now apply IH.
Qed.

Lemma get_absent {V} (k : Z) (m : Map V) :
  ~ List.In k (List.map fst m) -> get k m = None.
Proof.
  induction m as [| [j w] rest IH]; simpl; [reflexivity |].
  intros H. destruct (j =? k) eqn:E.
  - apply Z.eqb_eq in E. exfalso. apply H. now left.
  - apply IH. intros Hin. apply H. now right.
Qed.

Lemma set_absent {V} (k : Z) (v : V) (m : Map V) :
  get k m = None -> set k v m = m ++ [(k, v)].
Proof.
  induction m as [| [j w] rest IH]; simpl; [reflexivity |].
  destruct (j =? k) eqn:E; [discriminate |].
  intros H. now rewrite IH.
Qed.

Lemma set_set {V} (k : Z) (v w : V) (m : Map V) :
  set k v (set k w m) = set k v m.
Proof.
  induction m as [| [j x] rest IH]; simpl.
  - now rewrite Z.eqb_refl.
  - destruct (j =? k) eqn:E; simpl.
    + now rewrite Z.eqb_refl.
    + now rewrite E, IH.
Qed.

Lemma set_length_present {V} (k : Z) (v w : V) (m : Map V) :
  get k m = Some w -> List.length (set k v m) = List.length m.
Proof.
  intros H.
  rewrite <- (List.length_map fst (set k v m)), (set_keys_present k v w m H).
  apply List.length_map.
Qed.

(** ** Keys *)

Lemma keyed_next_absent {V} (id_of : V -> Z) (m : Map V) (next : Z) :
  keyed id_of m next -> get next m = None.
Proof.
  intros (Hkeys & Hnext & _).
  apply get_absent. rewrite Hkeys. intros Hin.
  apply List.in_map_iff in Hin. destruct Hin as (i & Hi & Hseq).
  apply List.in_seq in Hseq. lia.
Qed.

Lemma keyed_get_id {V} (id_of : V -> Z) (m : Map V) (next k : Z) (v : V) :
  keyed id_of m next -> get k m = Some v -> id_of v = k.
Proof.
  intros (_ & _ & Hids) Hget.
  apply get_In in Hget.
  rewrite List.Forall_forall in Hids. exact (Hids _ Hget).
Qed.

Lemma keyed_append {V} (id_of : V -> Z) (m : Map V) (next : Z) (v : V) :
  keyed id_of m next -> id_of v = next ->
  set next v m = m ++ [(next, v)] /\ keyed id_of (set next v m) (next + 1).
Proof.
  intros Hk Hid.
  pose proof (set_absent next v m (keyed_next_absent _ _ _ Hk)) as Hset.
  split; [exact Hset |].
  destruct Hk as (Hkeys & Hnext & Hids).
  rewrite Hset. unfold keyed.
  rewrite List.map_app, List.length_app, Hkeys. simpl.
  rewrite Nat.add_1_r, List.seq_S, List.map_app. simpl.
  split; [f_equal; f_equal; lia |].
  split; [lia |].
  apply List.Forall_app. split; [exact Hids |].
  constructor; [exact Hid | constructor].
Qed.

Lemma Forall_set {V} (P : Z * V -> Prop) (k : Z) (v : V) (m : Map V) :
  List.Forall P m -> P (k, v) -> List.Forall P (set k v m).
Proof.
  intros Hm Hv.
  induction Hm as [| [j w] rest Hw Hrest IH]; simpl.
  - constructor; [exact Hv | constructor].
  - destruct (j =? k); constructor; assumption.
Qed.

Lemma keyed_replace {V} (id_of : V -> Z) (m : Map V) (next k : Z) (v w : V) :
  keyed id_of m next -> get k m = Some w -> id_of v = id_of w ->
  keyed id_of (set k v m) next.
Proof.
  intros Hk Hget Hid.
  pose proof (keyed_get_id _ _ _ _ _ Hk Hget) as Hkey.
  destruct Hk as (Hkeys & Hnext & Hids).
  unfold keyed.
  rewrite (set_keys_present k v w m Hget), (set_length_present k v w m Hget).
  split; [exact Hkeys |]. split; [exact Hnext |].
  apply Forall_set; [exact Hids |]. simpl. congruence.
Qed.

(** Every method keeps the keys of the offers and of the usage events, and
    the keys of the listings; a listing can stop carrying the id it is
    stored under only through an [updateListing] whose input names another
    id. *)
Lemma call_offers_keyed (c : Call) (s : MemStorage.t) :
  keyed o_id (offersData s) (currentOfferId s) ->
  keyed o_id (offersData (call c s)) (currentOfferId (call c s)).
Proof.
  intros Ho.
  destruct c as [listing userId now | id listing | offer userId now
                 | id offer | event now | id invoice record]; simpl;
    try exact Ho.
  - unfold updateListing. destruct (getListing id s); exact Ho.
  - apply (keyed_append o_id); [exact Ho | reflexivity].
  - unfold updateOffer.
    destruct (getOffer id s) as [existing |] eqn:Hget; simpl; [| exact Ho].
    apply (keyed_replace o_id _ _ _ _ existing);
      [exact Ho | exact Hget | reflexivity].
  - unfold markUsageEventAsProcessed.
    destruct (get id (usageEventsData s)); exact Ho.
Qed.

Lemma call_usage_keyed (c : Call) (s : MemStorage.t) :
  keyed u_id (usageEventsData s) (currentUsageEventId s) ->
  keyed u_id (usageEventsData (call c s)) (currentUsageEventId (call c s)).
Proof.
  intros Hu.
  destruct c as [listing userId now | id listing | offer userId now
                 | id offer | event now | id invoice record]; simpl;
    try exact Hu.
  - unfold updateListing. destruct (getListing id s); exact Hu.
  - unfold updateOffer. destruct (getOffer id s); exact Hu.
  - apply (keyed_append u_id); [exact Hu | reflexivity].
  - unfold markUsageEventAsProcessed.
    destruct (get id (usageEventsData s)) as [existing |] eqn:Hget; simpl;
      [| exact Hu].
    apply (keyed_replace u_id _ _ _ _ existing);
      [exact Hu | exact Hget | reflexivity].
Qed.

Lemma call_listing_keys (c : Call) (s : MemStorage.t) :
  listing_keys_in_order s -> listing_keys_in_order (call c s).
Proof.
  intros (Hkeys & Hnext).
  assert (Hsame : listing_keys_in_order s) by now split.
  destruct c as [listing userId now | id listing | offer userId now
                 | id offer | event now | id invoice record]; simpl;
    try exact Hsame.
  - unfold listing_keys_in_order. simpl.
    match goal with
    | |- context [set ?k ?v (listingsData s)] =>
        assert (Happ : set k v (listingsData s) = listingsData s ++ [(k, v)])
    end.
    { apply set_absent, get_absent. rewrite Hkeys. intros Hin.
      apply List.in_map_iff in Hin. destruct Hin as (i & Hi & Hseq).
      apply List.in_seq in Hseq. lia. }
    rewrite Happ, List.map_app, List.length_app, Hkeys. simpl.
    rewrite Nat.add_1_r, List.seq_S, List.map_app. simpl.
    split; [f_equal; f_equal; lia | lia].
  - unfold updateListing.
    destruct (getListing id s) as [existing |] eqn:Hget; simpl;
      [| exact Hsame].
    unfold listing_keys_in_order. simpl.
    rewrite (set_keys_present id _ existing _ Hget),
      (set_length_present id _ existing _ Hget).
    now split.
  - unfold updateOffer. destruct (getOffer id s); exact Hsame.
  - unfold markUsageEventAsProcessed.
    destruct (get id (usageEventsData s)); exact Hsame.
Qed.

Lemma call_well_keyed (c : Call) (s : MemStorage.t) :
  keeps_key c -> well_keyed s -> well_keyed (call c s).
Proof.
  intros Hc (Hl & Ho & Hu).
  split; [| split; [now apply call_offers_keyed | now apply call_usage_keyed]].
  destruct c as [listing userId now | id listing | offer userId now
                 | id offer | event now | id invoice record]; simpl;
    try exact Hl.
  - apply (keyed_append l_id); [exact Hl | reflexivity].
  - unfold updateListing.
    destruct (getListing id s) as [existing |] eqn:Hget; simpl; [| exact Hl].
    apply (keyed_replace l_id _ _ _ _ existing); [exact Hl | exact Hget |].
    simpl in Hc. simpl.
    rewrite (keyed_get_id l_id _ _ _ _ Hl Hget). exact Hc.
  - unfold updateOffer. destruct (getOffer id s); exact Hl.
  - unfold markUsageEventAsProcessed.
    destruct (get id (usageEventsData s)); exact Hl.
Qed.

Lemma well_keyed_empty : well_keyed MemStorage.empty.
Proof. repeat split; constructor. Qed.

(** X1.  In every store that a sequence of method calls builds from a
    fresh [MemStorage], whatever the inputs, the offers and the usage
    events are keyed by the ids 1, 2, ... in creation order, the next id is
    one past the last and every record carries the id it is stored under;
    the listings have the keys 1, 2, ... in creation order.  The listings
    too carry the ids they are stored under when no [updateListing] input
    named another id, which is the only way a record and its key come
    apart. *)
Theorem reachable_well_keyed (calls : list Call) :
  keyed o_id (offersData (after calls)) (currentOfferId (after calls)) /\
  keyed u_id (usageEventsData (after calls))
        (currentUsageEventId (after calls)) /\
  listing_keys_in_order (after calls) /\
  (List.Forall keeps_key calls -> well_keyed (after calls)).
Proof.
  unfold after.
  assert (Hfrom : forall s,
            keyed o_id (offersData s) (currentOfferId s) ->
            keyed u_id (usageEventsData s) (currentUsageEventId s) ->
            listing_keys_in_order s ->
            let s' := List.fold_left (fun s c => call c s) calls s in
            keyed o_id (offersData s') (currentOfferId s') /\
            keyed u_id (usageEventsData s') (currentUsageEventId s') /\
            listing_keys_in_order s' /\
            (well_keyed s -> List.Forall keeps_key calls -> well_keyed s')).
  { induction calls as [| c calls IH]; intros s Ho Hu Hk; simpl.
    - split; [exact Ho |]. split; [exact Hu |]. split; [exact Hk |].
      intros Hs _. exact Hs.
    - destruct (IH (call c s) (call_offers_keyed c s Ho)
                  (call_usage_keyed c s Hu) (call_listing_keys c s Hk))
        as (Ho' & Hu' & Hk' & Hall).
      split; [exact Ho' |]. split; [exact Hu' |]. split; [exact Hk' |].
      intros Hs Hcalls. inversion Hcalls as [| ? ? Hc Hrest]; subst.
      apply Hall; [now apply call_well_keyed | exact Hrest]. }
  pose proof well_keyed_empty as Hempty.
  destruct (Hfrom MemStorage.empty (proj1 (proj2 Hempty))
              (proj2 (proj2 Hempty)) (conj eq_refl eq_refl))
    as (Ho & Hu & Hk & Hall).
  split; [exact Ho |]. split; [exact Hu |]. split; [exact Hk |].
  intros Hcalls. now apply Hall.
Qed.

Lemma reachable_well_keyed_witness :
  well_keyed (after [CreateListing home agent 100;
                     UpdateListing 1 (new_balance 180000)]).
Proof.
  apply (proj2 (proj2 (proj2 (reachable_well_keyed
           [CreateListing home agent 100;
            UpdateListing 1 (new_balance 180000)])))).
  repeat constructor.
Defined.


Lemma well_keyed_listed : well_keyed listed.
Proof.
  apply (call_well_keyed (CreateListing home agent 100)); [exact I |].
  exact well_keyed_empty.
Qed.

Lemma well_keyed_one_offer : well_keyed one_offer.
Proof.
  apply (call_well_keyed (CreateUsageEvent
           {| iu_userId := agent; iu_eventType := "offer_creation";
              iu_amount := 1 |} 101)); [exact I |].
  apply (call_well_keyed (CreateOffer
           (offerWithNetProceeds (fst (createListing home agent 100
                                         MemStorage.empty)) robinson)
           agent 101)); [exact I |].
  exact well_keyed_listed.
Qed.

Lemma get_app_present {V} (k : Z) (v : V) (m m' : Map V) :
  get k m = Some v -> get k (m ++ m') = Some v.
Proof.
  induction m as [| [j w] rest IH]; simpl; [discriminate |].
  destruct (j =? k); [trivial | exact IH].
Qed.

(** ** Creation order *)

(** X2.  In a store whose offers are keyed by their ids, [createOffer]
    takes an id that no stored offer has and overwrites nothing; the
    offers of the new offer's listing are the ones it had, in the same
    order, followed by the new offer, and the offers of every other
    listing are the same. *)
Theorem createOffer_appends (input : OfferInput) (userId now : Z)
    (s : MemStorage.t) :
  well_keyed s ->
  let offer := fst (createOffer input userId now s) in
  let s' := snd (createOffer input userId now s) in
  getOffer (o_id offer) s = None /\
  (forall id o, getOffer id s = Some o -> getOffer id s' = Some o) /\
  getOffers (in_listingId (fields input)) s'
  = getOffers (in_listingId (fields input)) s ++ [offer] /\
  (forall listingId,
     listingId <> in_listingId (fields input) ->
     getOffers listingId s' = getOffers listingId s).
Proof.
  intros (_ & Ho & _) offer s'.
  destruct (keyed_append o_id (offersData s) (currentOfferId s) offer Ho
              eq_refl) as (Happ & _).
  assert (Hdata : offersData s' = offersData s ++ [(currentOfferId s, offer)])
    by exact Happ.
  split; [exact (keyed_next_absent _ _ _ Ho) |].
  split.
  { intros id o Hget. unfold getOffer in *. rewrite Hdata.
    now apply get_app_present. }
  unfold getOffers, values. rewrite Hdata, List.map_app.
  split.
  - rewrite List.filter_app. simpl. now rewrite Z.eqb_refl.
  - intros listingId Hne. rewrite List.filter_app. simpl.
    destruct (in_listingId (fields input) =? listingId) eqn:E;
      [apply Z.eqb_eq in E; congruence |].
    apply List.app_nil_r.
Qed.

Lemma createOffer_appends_witness :
  List.map o_buyerName
    (getOffers 1 (snd (createOffer (bare slow_close) agent 102 one_offer)))
  = ["Robinson"; "Johnson"]%string.
Proof.
  pose proof well_keyed_one_offer as Hk.
  destruct (createOffer_appends (bare slow_close) agent 102 one_offer Hk)
    as (_ & _ & Happ & _).
  change (in_listingId (fields (bare slow_close))) with 1 in Happ.
  rewrite Happ, List.map_app. reflexivity.
Defined.

(** X3.  [createListing] in a store keyed by ids: the owner's listings are
    the ones they had followed by the new one, which is ["active"] whatever
    status the input carried and is listed at its creation time; the
    listings of every other user are the same. *)
Theorem createListing_appends (listing : InsertListing) (userId now : Z)
    (s : MemStorage.t) :
  well_keyed s ->
  let created := fst (createListing listing userId now s) in
  let s' := snd (createListing listing userId now s) in
  getListing (l_id created) s = None /\
  getListing (l_id created) s' = Some created /\
  l_status created = "active"%string /\
  l_listedDate created = l_createdAt created /\
  getListings userId s' = getListings userId s ++ [created] /\
  (forall other, other <> userId -> getListings other s' = getListings other s).
Proof.
  intros (Hl & _ & _) created s'.
  destruct (keyed_append l_id (listingsData s) (currentListingId s) created Hl
              eq_refl) as (Happ & _).
  assert (Hdata : listingsData s'
                  = listingsData s ++ [(currentListingId s, created)])
    by exact Happ.
  split; [exact (keyed_next_absent _ _ _ Hl) |].
  split; [unfold getListing; simpl; apply get_set_same |].
  split; [reflexivity |]. split; [reflexivity |].
  unfold getListings, values. rewrite Hdata, List.map_app.
  split.
  - rewrite List.filter_app. simpl. now rewrite Z.eqb_refl.
  - intros other Hne. rewrite List.filter_app. simpl.
    destruct (userId =? other) eqn:E; [apply Z.eqb_eq in E; congruence |].
    apply List.app_nil_r.
Qed.

Lemma createListing_appends_witness :
  List.map l_id (getListings agent (snd (createListing home agent 200 listed)))
  = [1; 2] /\
  getListings 8 (snd (createListing home agent 200 listed)) = [].
Proof.
  pose proof well_keyed_listed as Hk.
  destruct (createListing_appends home agent 200 listed Hk)
    as (_ & _ & _ & _ & Happ & Hother).
  split.
  - rewrite Happ, List.map_app. reflexivity.
  - rewrite (Hother 8); [reflexivity | discriminate].
Defined.

(** ** Updates, continued *)

Lemma values_set_same_image {V W} (f : V -> W) (k : Z) (v w : V) (m : Map V) :
  get k m = Some w -> f v = f w ->
  List.map f (values (set k v m)) = List.map f (values m).
Proof.
  unfold values.
  induction m as [| [j x] rest IH]; simpl; [discriminate |].
  destruct (j =? k) eqn:E; simpl.
  - intros H Hf. injection H as ->. now rewrite Hf.
  - intros H Hf. now rewrite IH.
Qed.

Lemma filter_through {A W B} (g : A -> W) (p : W -> bool) (h : W -> B)
    (l l' : list A) :
  List.map g l = List.map g l' ->
  List.map (fun x => h (g x)) (List.filter (fun x => p (g x)) l)
  = List.map (fun x => h (g x)) (List.filter (fun x => p (g x)) l').
Proof.
  revert l'. induction l as [| a l IH]; intros [| a' l'] H; simpl in *;
    try discriminate; [reflexivity |].
  injection H as Ha Hl. rewrite Ha.
  destruct (p (g a')); simpl; [rewrite Ha; f_equal |]; now apply IH.
Qed.

(** X4.  [updateListing], and [PATCH /api/listings/:id] for the owner,
    replace every field for which the input has a key, [id] and [userId]
    included since the body is not validated, and leave every other field,
    every other listing, the offers and the usage events as they were.  An
    absent id returns [undefined] and changes nothing, and the handler
    changes nothing for anyone but the owner.  When the input has neither
    an [id] nor a [userId] key, the listings of every user, by id and in
    order, are the same before and after. *)
Theorem updateListing_applies_input (user : option Z) (id : Z)
    (body : ListingPatch) (s : MemStorage.t) :
  match getListing id s with
  | None =>
      updateListing id body s = (None, s) /\
      snd (patch_listing user id body s) = s
  | Some existing =>
      exists updated s',
        updateListing id body s = (Some updated, s') /\
        (user = Some (l_userId existing) ->
         patch_listing user id body s = (Json 200 (Some updated), s')) /\
        (user <> Some (l_userId existing) ->
         snd (patch_listing user id body s) = s) /\
        getListing id s' = Some updated /\
        listing_fields_follow existing updated body /\
        (forall other, other <> id ->
           getListing other s' = getListing other s) /\
        offersData s' = offersData s /\
        usageEventsData s' = usageEventsData s /\
        (pl_id body = None -> pl_userId body = None ->
         forall userId,
           List.map l_id (getListings userId s')
           = List.map l_id (getListings userId s))
  end.
Proof.
  unfold patch_listing, updateListing.
  destruct (getListing id s) as [existing |] eqn:Hget.
  - eexists; eexists. split; [reflexivity |].
    split.
    { intros ->. now rewrite Z.eqb_refl. }
    split.
    { intros Hother. destruct user as [uid |]; [| reflexivity].
      destruct (l_userId existing =? uid) eqn:E; [| reflexivity].
      apply Z.eqb_eq in E. subst uid. now contradiction Hother. }
    split; [unfold getListing; simpl; apply get_set_same |].
    split.
    { unfold listing_fields_follow, follows, spreadListing, over. simpl.
      repeat split;
        match goal with
        | |- match ?x with _ => _ end => destruct x; reflexivity
        end. }
    split.
    { intros other Hne. unfold getListing. simpl. now apply get_set_other. }
    split; [reflexivity |]. split; [reflexivity |].
    intros Hid Huser userId.
    unfold getListings. simpl.
    apply (filter_through (fun x => (l_userId x, l_id x))
             (fun p => fst p =? userId) snd).
    apply values_set_same_image with (w := existing); [exact Hget |].
    simpl. now rewrite Hid, Huser.
  - split; [reflexivity |]. destruct user; reflexivity.
Qed.

Lemma updateListing_applies_input_witness :
  exists updated s',
    patch_listing (Some agent) 1 (new_balance 180000) listed
    = (Json 200 (Some updated), s') /\
    l_loanBalance updated = Some 180000%Q /\
    List.map l_id (getListings agent s') = [1].
Proof.
  pose proof (updateListing_applies_input (Some agent) 1 (new_balance 180000)
                listed) as H.
  assert (E : getListing 1 listed
              = Some (fst (createListing home agent 100 MemStorage.empty)))
    by reflexivity.
  rewrite E in H.
  destruct H as (updated & s' & _ & Hpatch & _ & _ & Hfields & _ & _ & _
                 & Hids).
  exists updated, s'.
  split; [exact (Hpatch eq_refl) |].
  split.
  - destruct Hfields as (_ & _ & _ & _ & _ & _ & _ & Hbalance & _).
    exact Hbalance.
  - rewrite (Hids eq_refl eq_refl agent). reflexivity.
Defined.

Lemma spread_spread (existing : Offer) (offer : PartialInsertOffer) :
  spread (spread existing offer) offer = spread existing offer.
Proof.
  assert (Hover : forall A (a : A) (x : option A), over (over a x) x = over a x).
  { intros A a [v |]; reflexivity. }
  unfold spread. cbn [o_id o_listingId o_userId o_parentOfferId o_versionNumber
    o_isCounterOffer o_buyerName o_buyerType o_price o_netProceeds
    o_agentCommission o_commissionType o_closingDate o_closingTimelineDays
    o_contingencies o_riskScore o_overallScore o_notes o_status o_documentUrl
    o_createdAt].
  rewrite !Hover. reflexivity.
Qed.

(** X5.  Applying the same update twice is applying it once: the second
    [updateOffer] returns the record the first returned and leaves the
    store as the first left it. *)
Theorem updateOffer_idempotent (id : Z) (offer : PartialInsertOffer)
    (s : MemStorage.t) :
  updateOffer id offer (snd (updateOffer id offer s))
  = (fst (updateOffer id offer s), snd (updateOffer id offer s)).
Proof.
  unfold updateOffer at 2 3 4.
  destruct (getOffer id s) as [existing |] eqn:Hget; simpl.
  - unfold updateOffer, getOffer. simpl.
    rewrite get_set_same, spread_spread. simpl.
    unfold with_offers. simpl. now rewrite set_set.
  - unfold updateOffer. now rewrite Hget.
Qed.

(** ** The sort *)

Lemma sort_insert_perm {A} (key : A -> Z) (x : A) (l : list A) :
  Permutation (sort_insert key x l) (x :: l).
Proof.
  induction l as [| y rest IH]; simpl; [reflexivity |].
  destruct (key y <? key x); [| reflexivity].
  rewrite IH. apply perm_swap.
Qed.

Lemma sort_by_perm {A} (key : A -> Z) (l : list A) :
  Permutation (sort_by key l) l.
Proof.
  unfold sort_by.
  induction l as [| x rest IH]; simpl; [reflexivity |].
  rewrite sort_insert_perm. now constructor.
Qed.

Lemma sort_insert_sorted {A} (key : A -> Z) (x : A) (l : list A) :
  Sorted (fun a b => key a <= key b) l ->
  Sorted (fun a b => key a <= key b) (sort_insert key x l).
Proof.
  induction l as [| y rest IH]; simpl; intros Hs.
  - repeat constructor.
  - destruct (key y <? key x) eqn:E.
    + inversion Hs as [| ? ? Hrest Hhd]; subst.
      constructor; [now apply IH |].
      destruct rest as [| z rest']; simpl.
      * constructor. apply Z.ltb_lt in E. lia.
      * destruct (key z <? key x).
        -- constructor. inversion Hhd; subst. assumption.
        -- constructor. apply Z.ltb_lt in E. lia.
    + constructor; [exact Hs |].
      constructor. apply Z.ltb_ge in E. exact E.
Qed.

Lemma sort_by_sorted {A} (key : A -> Z) (l : list A) :
  Sorted (fun a b => key a <= key b) (sort_by key l).
Proof.
  unfold sort_by.
  induction l as [| x rest IH]; simpl; [constructor |].
  now apply sort_insert_sorted.
Qed.

Lemma sort_insert_stable {A} (key : A -> Z) (k : Z) (x : A) (l : list A) :
  List.filter (fun o => key o =? k) (sort_insert key x l)
  = List.filter (fun o => key o =? k) (x :: l).
Proof.
  induction l as [| y rest IH]; simpl; [reflexivity |].
  destruct (key y <? key x) eqn:E; [| reflexivity].
  simpl. rewrite IH. simpl.
  destruct (key x =? k) eqn:Ex; [| reflexivity].
  destruct (key y =? k) eqn:Ey; [| reflexivity].
  apply Z.eqb_eq in Ex, Ey. apply Z.ltb_lt in E. lia.
Qed.

Lemma sort_by_stable {A} (key : A -> Z) (k : Z) (l : list A) :
  List.filter (fun o => key o =? k) (sort_by key l)
  = List.filter (fun o => key o =? k) l.
Proof.
  unfold sort_by.
  induction l as [| x rest IH]; simpl; [reflexivity |].
  rewrite sort_insert_stable. simpl. now rewrite IH.
Qed.

(** ** Offer history, continued *)

Lemma in_own_thread (offer : Offer) : in_thread (root_id offer) offer = true.
Proof.
  unfold in_thread, root_id, orZ, strict_eq.
  destruct (o_parentOfferId offer) as [p |].
  - destruct (p =? 0) eqn:E.
    + rewrite Z.eqb_refl. apply orb_true_r.
    + now rewrite Z.eqb_refl.
  - rewrite Z.eqb_refl. apply orb_true_r.
Qed.

Lemma getOffer_stored (id : Z) (offer : Offer) (s : MemStorage.t) :
  getOffer id s = Some offer -> List.In offer (values (offersData s)).
Proof.
  intros H. apply get_In in H.
  unfold values. apply List.in_map_iff. now exists (id, offer).
Qed.

(** When the offer at which the walk stops is stored, the history is the
    sorted list of the offers collected there. *)
Lemma getOfferHistory_thread (id : Z) (offer root : Offer) (s : MemStorage.t) :
  getOffer id s = Some offer ->
  getOffer (root_id offer) s = Some root ->
  getOfferHistory id s
  = sort_by version_key
      (List.filter (in_thread (root_id offer)) (values (offersData s))).
Proof.
  intros Hget Hroot.
  unfold getOfferHistory. rewrite Hget.
  fold (root_id offer). rewrite Hroot.
  fold (in_thread (root_id offer)).
  destruct (List.filter (in_thread (root_id offer)) (values (offersData s)))
    as [| o rest] eqn:Hf.
  - exfalso.
    assert (Hin : List.In offer
                    (List.filter (in_thread (root_id offer))
                                 (values (offersData s)))).
    { apply List.filter_In. split;
        [exact (getOffer_stored _ _ _ Hget) | apply in_own_thread]. }
    rewrite Hf in Hin. exact Hin.
  - reflexivity.
Qed.

Lemma getOfferHistory_rootless (id : Z) (offer : Offer) (s : MemStorage.t) :
  getOffer id s = Some offer ->
  getOffer (root_id offer) s = None ->
  getOfferHistory id s = [offer].
Proof.
  intros Hget Hroot.
  unfold getOfferHistory. rewrite Hget.
  fold (root_id offer). now rewrite Hroot.
Qed.

(** X6.  Whatever the store and the id, the history is in ascending order
    of version number (an absent or zero version counting as 1). *)
Theorem history_sorted (offerId : Z) (s : MemStorage.t) :
  Sorted (fun a b => version_key a <= version_key b)
         (getOfferHistory offerId s).
Proof.
  destruct (getOffer offerId s) as [offer |] eqn:Hget.
  - destruct (getOffer (root_id offer) s) as [root |] eqn:Hroot.
    + rewrite (getOfferHistory_thread _ _ _ _ Hget Hroot).
      apply sort_by_sorted.
    + rewrite (getOfferHistory_rootless _ _ _ Hget Hroot).
      repeat constructor.
  - unfold getOfferHistory. rewrite Hget. constructor.
Qed.

(** X7.  The history of a stored offer contains that offer; every offer in
    it is stored and is the offer one parent link up from the queried one
    (the queried one itself when it has no parent) or names that offer as
    its parent.  When that offer is stored, the history is exactly those
    offers, each once, and offers with the same version number come in
    the order in which they were created. *)
Theorem history_members (offerId : Z) (offer : Offer) (s : MemStorage.t) :
  getOffer offerId s = Some offer ->
  List.In offer (getOfferHistory offerId s) /\
  (forall o,
     List.In o (getOfferHistory offerId s) ->
     List.In o (values (offersData s)) /\
     (strict_eq (o_parentOfferId o) (root_id offer)
      || (o_id o =? root_id offer)) = true) /\
  (getOffer (root_id offer) s <> None ->
   Permutation (getOfferHistory offerId s)
     (List.filter (in_thread (root_id offer)) (values (offersData s))) /\
   forall version,
     List.filter (fun o => version_key o =? version)
                 (getOfferHistory offerId s)
     = List.filter (fun o => version_key o =? version)
         (List.filter (in_thread (root_id offer)) (values (offersData s)))).
Proof.
  intros Hget.
  pose proof (getOffer_stored _ _ _ Hget) as Hstored.
  pose proof (in_own_thread offer) as Hown.
  destruct (getOffer (root_id offer) s) as [root |] eqn:Hroot.
  - rewrite (getOfferHistory_thread _ _ _ _ Hget Hroot).
    pose proof (sort_by_perm version_key
                  (List.filter (in_thread (root_id offer))
                               (values (offersData s)))) as Hperm.
    split.
    { apply (Permutation_in _ (Permutation_sym Hperm)).
      apply List.filter_In. now split. }
    split.
    { intros o Hin. apply (Permutation_in _ Hperm) in Hin.
      apply List.filter_In in Hin. exact Hin. }
    intros _. split; [exact Hperm |].
    intros version. apply sort_by_stable.
  - rewrite (getOfferHistory_rootless _ _ _ Hget Hroot).
    split; [now left |].
    split.
    { intros o [<- | []]. split; [exact Hstored | exact Hown]. }
    intros H. now contradiction H.
Qed.

Lemma history_members_witness :
  List.map o_id (getOfferHistory 3 thread) = [2; 3] /\
  exists v3,
    getOffer 3 thread = Some v3 /\ List.In v3 (getOfferHistory 3 thread).
Proof.
  split; [vm_compute; reflexivity |].
  destruct (getOffer 3 thread) as [v3 |] eqn:Hget.
  - exists v3. split; [reflexivity |].
    exact (proj1 (history_members 3 v3 thread Hget)).
  - vm_compute in Hget. discriminate Hget.
Defined.

(** X8.  Two stored offers that stop at the same stored offer one link up
    have the same history: a root and each of its direct counters answer
    with one list. *)
Theorem history_same_root (a b : Z) (oa ob : Offer) (s : MemStorage.t) :
  getOffer a s = Some oa ->
  getOffer b s = Some ob ->
  root_id oa = root_id ob ->
  getOffer (root_id oa) s <> None ->
  getOfferHistory a s = getOfferHistory b s.
Proof.
  intros Ha Hb Hsame Hroot.
  destruct (getOffer (root_id oa) s) as [root |] eqn:Hr; [| contradiction].
  rewrite (getOfferHistory_thread _ _ _ _ Ha Hr).
  rewrite Hsame in Hr |- *.
  now rewrite (getOfferHistory_thread _ _ _ _ Hb Hr).
Qed.

Lemma history_same_root_witness :
  getOfferHistory 1 thread = getOfferHistory 2 thread.
Proof.
  destruct (getOffer 1 thread) as [v1 |] eqn:H1;
    [| vm_compute in H1; discriminate H1].
  destruct (getOffer 2 thread) as [v2 |] eqn:H2;
    [| vm_compute in H2; discriminate H2].
  apply (history_same_root 1 2 v1 v2 thread H1 H2).
  - vm_compute in H1, H2. injection H1 as <-. injection H2 as <-.
    vm_compute. reflexivity.
  - vm_compute in H1. injection H1 as <-. vm_compute. discriminate.
Defined.


(** The answer and the store of an accepted [POST /api/offers]. *)
Lemma post_offers_accepted (uid : Z) (body : InsertOffer) (now : Z)
    (s : MemStorage.t) (listing : Listing) :
  getListing (in_listingId body) s = Some listing ->
  l_userId listing = uid ->
  post_offers (Some uid) (Some body) now s
  = (Json 201 (fst (createOffer (offerWithNetProceeds listing body) uid now s)),
     snd (createUsageEvent
            {| iu_userId := uid;
               iu_eventType := "offer_creation";
               iu_amount := 1 |} now
            (snd (createOffer (offerWithNetProceeds listing body) uid now s)))).
Proof.
  intros Hl Hu. unfold post_offers.
  now rewrite Hl, Hu, Z.eqb_refl.
Qed.

(** ** Counter-offers *)



(** ** Who may create, and what a creation records *)

(** X10.  [POST /api/offers] creates an offer only for an authenticated
    user, from a body that validates, on a listing that exists and that
    the user owns; the new record belongs to that user and that listing.
    Every other request is refused with 401, 400, 404 or 403 and leaves the
    store exactly as it was. *)
Theorem post_offers_outcome (user : option Z) (body : option InsertOffer)
    (now : Z) (s : MemStorage.t) :
  match post_offers user body now s with
  | (Json status offer, s') =>
      status = 201 /\
      exists uid validated listing,
        user = Some uid /\ body = Some validated /\
        getListing (in_listingId validated) s = Some listing /\
        l_userId listing = uid /\
        o_userId offer = uid /\
        o_listingId offer = in_listingId validated /\
        getOffer (o_id offer) s' = Some offer /\
        listingsData s' = listingsData s
  | (Message status _, s') =>
      s' = s /\
      status = match user, body with
               | None, _ => 401
               | Some _, None => 400
               | Some _, Some validated =>
                   match getListing (in_listingId validated) s with
                   | None => 404
                   | Some _ => 403
                   end
               end
  end.
Proof.
  unfold post_offers.
  destruct user as [uid |]; [| now split].
  destruct body as [validated |]; [| now split].
  destruct (getListing (in_listingId validated) s) as [listing |] eqn:Hl;
    [| now split].
  destruct (l_userId listing =? uid) eqn:E; simpl; [| now split].
  apply Z.eqb_eq in E.
  split; [reflexivity |].
  exists uid, validated, listing.
  repeat split; try assumption.
  unfold getOffer. simpl. apply get_set_same.
Qed.

(** X11.  An accepted creation appends to the caller's usage events
    exactly one event, of type "offer_creation" and amount 1, unprocessed
    and without Stripe ids; the events of every other user are the same. *)
Theorem post_offers_records_usage (uid : Z) (body : InsertOffer) (now : Z)
    (s : MemStorage.t) (listing : Listing) :
  well_keyed s ->
  getListing (in_listingId body) s = Some listing ->
  l_userId listing = uid ->
  let s' := snd (post_offers (Some uid) (Some body) now s) in
  getUserUsageEvents uid s'
  = getUserUsageEvents uid s
    ++ [{| u_id := currentUsageEventId s;
           u_userId := uid;
           u_eventType := "offer_creation";
           u_stripeInvoiceId := None;
           u_stripeUsageRecordId := None;
           u_amount := 1;
           u_processed := false;
           u_createdAt := now |}] /\
  (forall other, other <> uid ->
     getUserUsageEvents other s' = getUserUsageEvents other s).
Proof.
  intros (_ & _ & Hu) Hl Ho s'.
  unfold s'. rewrite (post_offers_accepted uid body now s listing Hl Ho).
  unfold getUserUsageEvents, values. simpl.
  match goal with
  | |- context [set ?k ?e (usageEventsData s)] =>
      rewrite (proj1 (keyed_append u_id _ _ e Hu eq_refl))
  end.
  rewrite List.map_app.
  split.
  - rewrite List.filter_app. simpl. now rewrite Z.eqb_refl.
  - intros other Hne. rewrite List.filter_app. simpl.
    destruct (uid =? other) eqn:E; [apply Z.eqb_eq in E; congruence |].
    apply List.app_nil_r.
Qed.

Lemma post_offers_records_usage_witness :
  List.map (fun e => (u_eventType e, u_processed e))
           (getUserUsageEvents agent one_offer)
  = [("offer_creation"%string, false)].
Proof.
  pose proof well_keyed_listed as Hk.
  destruct (post_offers_records_usage agent robinson 101 listed
              (fst (createListing home agent 100 MemStorage.empty))
              Hk eq_refl eq_refl) as (Happ & _).
  cbv zeta in Happ.
  change (snd (post_offers (Some agent) (Some robinson) 101 listed))
    with one_offer in Happ.
  rewrite Happ. reflexivity.
Defined.

(** ** Extraction *)

(** X12.  [POST /api/offers/extract] persists no offer and no listing,
    whatever it answers.  For the owner of the listing, with a document,
    it answers 200 with the extracted data as it received them, the path of
    the document, and [price - loanBalance - commission] beside them, the
    commission resolved as a percentage up to 20; and it records exactly
    one unprocessed "document_extraction" event of 2.50 for the caller.
    It answers with data for no one else, and a refusal (401, 400 or 403)
    leaves the store as it was. *)
Theorem extract_persists_nothing (user : option Z) (file : option string)
    (listingId : option Z) (extracted : ExtractedOffer) (now : Z)
    (s : MemStorage.t) :
  let answer := fst (post_offers_extract user file listingId extracted now s) in
  let s' := snd (post_offers_extract user file listingId extracted now s) in
  (offersData s' = offersData s /\
   listingsData s' = listingsData s /\
   currentOfferId s' = currentOfferId s) /\
  (forall uid path lid listing,
     user = Some uid -> file = Some path -> listingId = Some lid ->
     getListing lid s = Some listing -> l_userId listing = uid ->
     (exists result,
        answer = Json 200 result /\
        extractedData result = extracted /\
        documentUrl result = path /\
        (extracted_netProceeds result
         == x_price extracted - orQ (l_loanBalance listing) 0
            - resolveAgentCommission (x_price extracted)
                                     (x_agentCommission extracted))%Q) /\
     (well_keyed s ->
      getUserUsageEvents uid s'
      = getUserUsageEvents uid s
        ++ [{| u_id := currentUsageEventId s;
               u_userId := uid;
               u_eventType := "document_extraction";
               u_stripeInvoiceId := None;
               u_stripeUsageRecordId := None;
               u_amount := 25 # 10;
               u_processed := false;
               u_createdAt := now |}] /\
      forall other, other <> uid ->
        getUserUsageEvents other s' = getUserUsageEvents other s)) /\
  (forall status result,
     answer = Json status result ->
     exists uid lid listing,
       user = Some uid /\ file <> None /\ listingId = Some lid /\
       getListing lid s = Some listing /\ l_userId listing = uid) /\
  (forall status message,
     answer = Message status message ->
     s' = s /\ (status = 401 \/ status = 400 \/ status = 403)).
Proof.
  intros answer s'. unfold answer, s', post_offers_extract.
  split; [| split; [| split]].
  - destruct user as [uid |]; [| simpl; now repeat split].
    destruct file as [path |]; [| simpl; now repeat split].
    destruct listingId as [lid |]; [| simpl; now repeat split].
    destruct (getListing lid s) as [listing |]; [| simpl; now repeat split].
    destruct (negb (l_userId listing =? uid)); simpl; now repeat split.
  - intros uid path lid listing -> -> -> Hl Hu.
    rewrite Hl, Hu, Z.eqb_refl. simpl.
    split.
    { eexists. split; [reflexivity |]. simpl.
      split; [reflexivity |]. split; reflexivity. }
    intros (_ & _ & Hk).
    unfold getUserUsageEvents, values. simpl.
    match goal with
    | |- context [set ?k ?e (usageEventsData s)] =>
        rewrite (proj1 (keyed_append u_id _ _ e Hk eq_refl))
    end.
    rewrite List.map_app.
    split.
    + rewrite List.filter_app. simpl. now rewrite Z.eqb_refl.
    + intros other Hne. rewrite List.filter_app. simpl.
      destruct (uid =? other) eqn:E; [apply Z.eqb_eq in E; congruence |].
      apply List.app_nil_r.
  - intros status result.
    destruct user as [uid |]; [| discriminate].
    destruct file as [path |]; [| discriminate].
    destruct listingId as [lid |]; [| discriminate].
    destruct (getListing lid s) as [listing |] eqn:Hl; [| discriminate].
    destruct (l_userId listing =? uid) eqn:E; simpl; [| discriminate].
    intros _. apply Z.eqb_eq in E.
    exists uid, lid, listing. repeat split; try assumption. discriminate.
  - intros status message.
    destruct user as [uid |];
      [| simpl; intros H; injection H as <- _; auto].
    destruct file as [path |];
      [| simpl; intros H; injection H as <- _; auto].
    destruct listingId as [lid |];
      [| simpl; intros H; injection H as <- _; auto].
    destruct (getListing lid s) as [listing |];
      [| simpl; intros H; injection H as <- _; auto].
    destruct (l_userId listing =? uid) eqn:E; simpl;
      [discriminate | intros H; injection H as <- _; auto].
Qed.

Lemma extract_persists_nothing_witness :
  (exists result,
     fst (post_offers_extract (Some agent) (Some "uploads/offer.txt"%string)
            (Some 1) robinson_extracted 101 listed)
     = Json 200 result /\
     (extracted_netProceeds result == 479000)%Q) /\
  List.map u_eventType
    (getUserUsageEvents agent
       (snd (post_offers_extract (Some agent)
               (Some "uploads/offer.txt"%string) (Some 1) robinson_extracted
               101 listed)))
  = ["document_extraction"%string].
Proof.
  pose proof (extract_persists_nothing (Some agent)
                (Some "uploads/offer.txt"%string) (Some 1) robinson_extracted
                101 listed) as H.
  cbv zeta in H.
  destruct H as (_ & Haccepted & _).
  destruct (Haccepted agent "uploads/offer.txt"%string 1
              (fst (createListing home agent 100 MemStorage.empty))
              eq_refl eq_refl eq_refl eq_refl eq_refl)
    as ((result & Hanswer & _ & _ & Hnet) & Husage).
  split.
  - exists result. split; [exact Hanswer |]. rewrite Hnet. reflexivity.
  - destruct (Husage well_keyed_listed) as (Happ & _).
    rewrite Happ. reflexivity.
Defined.

(** X13.  When the extraction falls back to [getFallbackOffer], whose
    commission is the number 0.06, the handler reads that number as a
    percentage: the net proceeds it answers with are the fallback price
    (listing price plus 10000) less the loan balance less 0.06 percent of
    that price. *)
Theorem extract_fallback_net_proceeds (uid lid : Z) (path : string) (now : Z)
    (s : MemStorage.t) (listing : Listing) :
  getListing lid s = Some listing ->
  l_userId listing = uid ->
  exists answer s',
    post_offers_extract (Some uid) (Some path) (Some lid)
                        (getFallbackOffer listing) now s
    = (Json 200 answer, s') /\
    (x_price (extractedData answer) == l_price listing + 10000)%Q /\
    (extracted_netProceeds answer
     == (l_price listing + 10000) - orQ (l_loanBalance listing) 0
        - (l_price listing + 10000) * (6 # 10000))%Q.
Proof.
  intros Hl Hu.
  unfold post_offers_extract. rewrite Hl, Hu, Z.eqb_refl. simpl.
  eexists; eexists. split; [reflexivity |]. simpl.
  split; [reflexivity |].
  unfold routeNetProceeds, resolveAgentCommission. simpl.
  set (p := (l_price listing + 10000)%Q).
  set (b := orQ (l_loanBalance listing) 0).
  field.
Qed.

Lemma extract_fallback_net_proceeds_witness :
  exists answer s',
    post_offers_extract (Some agent) (Some "uploads/offer.txt"%string)
      (Some 1) (getFallbackOffer (fst (createListing home agent 100
                                         MemStorage.empty))) 101 listed
    = (Json 200 answer, s') /\
    (extracted_netProceeds answer == 534559)%Q.
Proof.
  destruct (extract_fallback_net_proceeds agent 1 "uploads/offer.txt" 101
              listed (fst (createListing home agent 100 MemStorage.empty))
              eq_refl eq_refl) as (answer & s' & Hpost & _ & Hnet).
  exists answer, s'. split; [exact Hpost |].
  rewrite Hnet. reflexivity.
Defined.

(** ** Who may read *)

(** X14.  The handlers that read a listing, the offers of a listing or one
    offer answer with data only to an authenticated user who owns the
    listing concerned; the offers answered for a listing are the stored
    offers of that listing. *)
Theorem reads_are_for_the_owner (user : option Z) (id : Z) (s : MemStorage.t) :
  (forall status listing,
     get_listing user id s = Json status listing ->
     getListing id s = Some listing /\ user = Some (l_userId listing)) /\
  (forall status offers,
     get_listing_offers user id s = Json status offers ->
     (exists listing,
        getListing id s = Some listing /\ user = Some (l_userId listing)) /\
     offers = getOffers id s /\
     List.Forall (fun o => o_listingId o = id) offers) /\
  (forall status offer,
     get_offer user id s = Json status offer ->
     getOffer id s = Some offer /\
     exists listing,
       getListing (o_listingId offer) s = Some listing /\
       user = Some (l_userId listing)) /\
  (forall status history,
     get_offer_history user id s = Json status history ->
     history = getOfferHistory id s /\
     exists offer listing,
       getOffer id s = Some offer /\
       getListing (o_listingId offer) s = Some listing /\
       user = Some (l_userId listing)).
Proof.
  unfold get_listing, get_listing_offers, get_offer, get_offer_history.
  destruct user as [uid |]; [| repeat split; discriminate].
  split; [| split; [| split]].
  - intros status listing.
    destruct (getListing id s) as [l |]; [| discriminate].
    destruct (l_userId l =? uid) eqn:E; simpl; [| discriminate].
    intros H. injection H as _ <-. apply Z.eqb_eq in E. now subst uid.
  - intros status offers.
    destruct (getListing id s) as [l |]; [| discriminate].
    destruct (l_userId l =? uid) eqn:E; simpl; [| discriminate].
    intros H. injection H as _ <-. apply Z.eqb_eq in E.
    split; [exists l; now subst uid |].
    split; [reflexivity |].
    apply List.Forall_forall. intros o Hin.
    apply List.filter_In in Hin. now apply Z.eqb_eq.
  - intros status offer.
    destruct (getOffer id s) as [o |]; [| discriminate].
    destruct (getListing (o_listingId o) s) as [l |] eqn:Hl; [| discriminate].
    destruct (l_userId l =? uid) eqn:E; simpl; [| discriminate].
    intros H. injection H as _ <-. apply Z.eqb_eq in E.
    split; [reflexivity |]. exists l. now subst uid.
  - intros status history.
    destruct (getOffer id s) as [o |]; [| discriminate].
    destruct (getListing (o_listingId o) s) as [l |] eqn:Hl; [| discriminate].
    destruct (l_userId l =? uid) eqn:E; simpl; [| discriminate].
    intros H. injection H as _ <-. apply Z.eqb_eq in E.
    split; [reflexivity |]. exists o, l. now subst uid.
Qed.

Lemma reads_are_for_the_owner_witness :
  exists listing, getListing 1 one_offer = Some listing /\
                  Some agent = Some (l_userId listing).
Proof.
  eexists.
  refine (proj1 (reads_are_for_the_owner (Some agent) 1 one_offer) 200 _ _).
  reflexivity.
Defined.

(** ** The usage ledger *)

(** X15.  No method of the store removes a usage event, changes its owner,
    type, amount or creation time, clears its processed flag, or clears a
    Stripe id that was recorded on it. *)
Theorem usage_event_persists (c : Call) (s : MemStorage.t) (id : Z)
    (event : UsageEvent) :
  well_keyed s ->
  get id (usageEventsData s) = Some event ->
  exists event',
    get id (usageEventsData (call c s)) = Some event' /\
    u_id event' = u_id event /\
    u_userId event' = u_userId event /\
    u_eventType event' = u_eventType event /\
    u_amount event' = u_amount event /\
    u_createdAt event' = u_createdAt event /\
    (u_processed event = true -> u_processed event' = true) /\
    (u_stripeInvoiceId event <> None -> u_stripeInvoiceId event' <> None) /\
    (u_stripeUsageRecordId event <> None ->
     u_stripeUsageRecordId event' <> None).
Proof.
  intros (_ & _ & Hu) Hget.
  assert (Hsame : exists event',
            Some event = Some event' /\
            u_id event' = u_id event /\
            u_userId event' = u_userId event /\
            u_eventType event' = u_eventType event /\
            u_amount event' = u_amount event /\
            u_createdAt event' = u_createdAt event /\
            (u_processed event = true -> u_processed event' = true) /\
            (u_stripeInvoiceId event <> None ->
             u_stripeInvoiceId event' <> None) /\
            (u_stripeUsageRecordId event <> None ->
             u_stripeUsageRecordId event' <> None)).
  { exists event. repeat split; trivial. }
  assert (HorS : forall x d, d <> None -> orS x d <> None).
  { intros [[| a x] |] d Hd; simpl; [exact Hd | discriminate | exact Hd]. }
  destruct c as [listing userId now | lid listing | offer userId now
                 | oid offer | e now | eid invoice record]; simpl.
  - now rewrite Hget.
  - unfold updateListing. destruct (getListing lid s); simpl;
      now rewrite Hget.
  - now rewrite Hget.
  - unfold updateOffer. destruct (getOffer oid s); simpl; now rewrite Hget.
  - match goal with
    | |- context [set ?k ?v (usageEventsData s)] =>
        rewrite (proj1 (keyed_append u_id _ _ v Hu eq_refl))
    end.
    rewrite (get_app_present _ _ _ _ Hget). exact Hsame.
  - unfold markUsageEventAsProcessed.
    destruct (get eid (usageEventsData s)) as [existing |] eqn:He; simpl;
      [| now rewrite Hget].
    destruct (Z.eq_dec eid id) as [-> | Hne].
    + rewrite get_set_same. rewrite Hget in He. injection He as <-.
      eexists. split; [reflexivity |]. simpl.
      repeat split; trivial; apply HorS.
    + rewrite (get_set_other eid id _ _ (not_eq_sym Hne)).
      rewrite Hget. exact Hsame.
Qed.

Lemma usage_event_persists_witness :
  exists event',
    get 1 (usageEventsData
             (call (MarkUsageEventAsProcessed 1 (Some "pi_1"%string) None)
                   one_offer)) = Some event' /\
    u_amount event' = 1%Q.
Proof.
  pose proof well_keyed_one_offer as Hk.
  destruct (usage_event_persists
              (MarkUsageEventAsProcessed 1 (Some "pi_1"%string) None)
              one_offer 1 _ Hk eq_refl)
    as (event' & Hget & _ & _ & _ & Hamount & _).
  exists event'. split; [exact Hget | exact Hamount].
Defined.

(** ** Insights, continued *)

(** A running maximum that only a strictly better element replaces ends on
    the first element that none beats. *)
Lemma running_best {A} (beats : A -> A -> bool) (good : A -> Prop) :
  (forall x m y, good x -> good m -> good y ->
                 beats x m = true -> beats m y = true -> beats x y = true) ->
  (forall x m y, good x -> good m -> good y ->
                 beats x m = true -> beats y m = false -> beats x y = true) ->
  forall l before m rest,
    List.Forall good (before ++ m :: rest ++ l) ->
    (forall x, List.In x before -> beats m x = true) ->
    (forall x, List.In x rest -> beats x m = false) ->
    first_best beats (before ++ m :: rest ++ l)
      (List.fold_left (fun best x => if beats x best then x else best) l m).
Proof.
  intros Htrans Hchain.
  induction l as [| x l IH]; intros before m rest Hgood Hbefore Hrest; simpl.
  - exists before, rest. rewrite List.app_nil_r. now repeat split.
  - assert (Hall : forall y, List.In y (before ++ m :: rest ++ x :: l) ->
                             good y).
    { now apply List.Forall_forall. }
    assert (Hgx : good x).
    { apply Hall. apply List.in_or_app. right. right.
      apply List.in_or_app. right. now left. }
    assert (Hgm : good m).
    { apply Hall. apply List.in_or_app. right. now left. }
    destruct (beats x m) eqn:E.
    + replace (before ++ m :: rest ++ x :: l)
        with ((before ++ m :: rest) ++ x :: [] ++ l)
        by (rewrite <- List.app_assoc; reflexivity).
      apply IH.
      * rewrite <- List.app_assoc. exact Hgood.
      * intros y Hy. apply List.in_app_or in Hy.
        destruct Hy as [Hy | [<- | Hy]].
        -- apply (Htrans x m y); auto.
           apply Hall. apply List.in_or_app. now left.
        -- exact E.
        -- apply (Hchain x m y); auto.
           apply Hall. apply List.in_or_app. right. right.
           apply List.in_or_app. now left.
      * intros y [].
    + replace (before ++ m :: rest ++ x :: l)
        with (before ++ m :: (rest ++ [x]) ++ l)
        by (rewrite <- List.app_assoc; reflexivity).
      apply IH.
      * rewrite <- List.app_assoc. exact Hgood.
      * exact Hbefore.
      * intros y Hy. apply List.in_app_or in Hy.
        destruct Hy as [Hy | [<- | []]]; [now apply Hrest | exact E].
Qed.

Lemma scan_split (offers : list Offer) (b r h : Offer) :
  List.fold_left
    (fun '(bestOffer, lowestRiskOffer, highestNetProceedsOffer) offer =>
       (if gt_nan (o_overallScore offer) (o_overallScore bestOffer)
        then offer else bestOffer,
        if (o_riskScore offer >? o_riskScore lowestRiskOffer)%Z
        then offer else lowestRiskOffer,
        if Qlt_bool (o_netProceeds highestNetProceedsOffer)
                    (o_netProceeds offer)
        then offer else highestNetProceedsOffer))
    offers (b, r, h)
  = (List.fold_left (fun best x => if beats_overall x best then x else best)
                    offers b,
     List.fold_left (fun best x => if beats_risk x best then x else best)
                    offers r,
     List.fold_left (fun best x => if beats_net x best then x else best)
                    offers h).
Proof.
  revert b r h. induction offers as [| o offers IH]; intros b r h; simpl;
    [reflexivity |].
  apply IH.
Qed.

Lemma running_pick_In {A} (beats : A -> A -> bool) (l : list A) (m : A) :
  List.In (List.fold_left (fun best x => if beats x best then x else best) l m)
          (m :: l).
Proof.
  revert m. induction l as [| x l IH]; intros m; simpl; [now left |].
  destruct (IH (if beats x m then x else m)) as [H | H].
  - destruct (beats x m); [right; left | left]; exact H.
  - right. now right.
Qed.

Lemma Qlt_bool_false (a b : Q) : Qlt_bool a b = false <-> (b <= a)%Q.
Proof.
  unfold Qlt_bool. rewrite negb_false_iff. apply Qle_bool_iff.
Qed.

(** X16.  Over a non-empty list of offers the insights loop selects, for
    the risk score and for the net proceeds, the first offer in the list
    that no offer exceeds: a tie goes to the offer seen first.  It does the
    same for the overall score when every overall score is a number. *)
Theorem scan_selects_first_best (first : Offer) (rest : list Offer) :
  let offers := first :: rest in
  let '(bestOffer, lowestRiskOffer, highestNetProceedsOffer) :=
    scan offers first in
  first_best beats_risk offers lowestRiskOffer /\
  first_best beats_net offers highestNetProceedsOffer /\
  (List.Forall (fun o => o_overallScore o <> None) offers ->
   first_best beats_overall offers bestOffer).
Proof.
  unfold scan. rewrite scan_split. simpl.
  assert (Hrr : beats_risk first first = false).
  { unfold beats_risk. rewrite Z.gtb_ltb. apply Z.ltb_irrefl. }
  assert (Hnn : beats_net first first = false).
  { unfold beats_net. apply Qlt_bool_false. apply Qle_refl. }
  assert (Hoo : beats_overall first first = false).
  { unfold beats_overall, gt_nan. destruct (o_overallScore first);
      [rewrite Z.gtb_ltb; apply Z.ltb_irrefl | reflexivity]. }
  rewrite Hrr, Hnn, Hoo.
  split; [| split].
  - refine (running_best beats_risk (fun _ => True) _ _ rest [] first [] _ _ _).
    + unfold beats_risk. intros x m y _ _ _ H1 H2.
      rewrite Z.gtb_ltb in *. apply Z.ltb_lt in H1, H2. apply Z.ltb_lt. lia.
    + unfold beats_risk. intros x m y _ _ _ H1 H2.
      rewrite Z.gtb_ltb in *. apply Z.ltb_lt in H1. apply Z.ltb_ge in H2.
      apply Z.ltb_lt. lia.
    + apply List.Forall_forall. trivial.
    + intros x [].
    + intros x [].
  - refine (running_best beats_net (fun _ => True) _ _ rest [] first [] _ _ _).
    + unfold beats_net. intros x m y _ _ _ H1 H2.
      apply Qlt_bool_iff in H1, H2. apply Qlt_bool_iff.
      now apply Qlt_trans with (o_netProceeds m).
    + unfold beats_net. intros x m y _ _ _ H1 H2.
      apply Qlt_bool_iff in H1. apply Qlt_bool_false in H2.
      apply Qlt_bool_iff. now apply Qle_lt_trans with (o_netProceeds m).
    + apply List.Forall_forall. trivial.
    + intros x [].
    + intros x [].
  - intros Hnum.
    refine (running_best beats_overall (fun o => o_overallScore o <> None) _ _ rest [] first [] _ _ _).
    + unfold beats_overall, gt_nan. intros x m y Hx Hm Hy.
      destruct (o_overallScore x), (o_overallScore m), (o_overallScore y);
        try congruence.
      rewrite !Z.gtb_ltb. intros H1 H2.
      apply Z.ltb_lt in H1, H2. apply Z.ltb_lt. lia.
    + unfold beats_overall, gt_nan. intros x m y Hx Hm Hy.
      destruct (o_overallScore x), (o_overallScore m), (o_overallScore y);
        try congruence.
      rewrite !Z.gtb_ltb. intros H1 H2.
      apply Z.ltb_lt in H1. apply Z.ltb_ge in H2. apply Z.ltb_lt. lia.
    + exact Hnum.
    + intros x [].
    + intros x [].
Qed.

(** X17.  For the owner of a listing with two or more offers, none with
    null contingencies, the insights are answered with status 200: the
    recommendation names the offer that the loop selected for the overall
    score, with that score, and the three other fields are present. *)
Theorem insights_two_or_more (toLocaleString : Q -> string) (uid listingId : Z)
    (s : MemStorage.t) (listing : Listing) (first second : Offer)
    (rest : list Offer) :
  getListing listingId s = Some listing ->
  l_userId listing = uid ->
  getOffers listingId s = first :: second :: rest ->
  List.Forall (fun o => o_contingencies o <> None) (first :: second :: rest) ->
  exists insights,
    get_listing_insights toLocaleString (Some uid) listingId s
    = Json 200 insights /\
    recommendation insights
    = ("Based on your priorities, the offer from "
       ++ o_buyerName (fst (fst (scan (first :: second :: rest) first)))
       ++ " is the strongest overall option with a score of "
       ++ showNum (o_overallScore
                     (fst (fst (scan (first :: second :: rest) first))))
       ++ "/100.")%string /\
    riskAssessment insights <> None /\
    netProceedsComparison insights <> None /\
    negotiationOpportunities insights <> None.
Proof.
  intros Hl Hu Ho Hc.
  unfold get_listing_insights. rewrite Hl, Hu, Z.eqb_refl, Ho. simpl negb.
  cbv iota.
  unfold prepareInsights.
  assert (Hin : List.In (snd (fst (scan (first :: second :: rest) first)))
                        (first :: second :: rest)).
  { unfold scan. rewrite scan_split. cbn [fst snd].
    destruct (running_pick_In beats_risk (first :: second :: rest) first)
      as [<- | H]; [now left | exact H]. }
  destruct (scan (first :: second :: rest) first) as [[b r] h] eqn:Hscan.
  cbn [fst snd] in Hin |- *.
  assert (Hr : o_contingencies r <> None).
  { rewrite List.Forall_forall in Hc. now apply Hc. }
  unfold contingencyCount.
  destruct (o_contingencies r) as [l |]; [| contradiction].
  simpl. eexists. split; [reflexivity |]. simpl.
  repeat split; discriminate.
Qed.

Lemma scan_selects_first_best_witness :
  first_best beats_overall
    [fst (createOffer (bare robinson) agent 101 listed);
     fst (createOffer (bare slow_close) agent 102 listed)]
    (fst (createOffer (bare robinson) agent 101 listed)).
Proof.
  pose proof (scan_selects_first_best
                (fst (createOffer (bare robinson) agent 101 listed))
                [fst (createOffer (bare slow_close) agent 102 listed)]) as H.
  cbv zeta in H.
  assert (E : scan [fst (createOffer (bare robinson) agent 101 listed);
                    fst (createOffer (bare slow_close) agent 102 listed)]
                   (fst (createOffer (bare robinson) agent 101 listed))
              = (fst (createOffer (bare robinson) agent 101 listed),
                 fst (createOffer (bare robinson) agent 101 listed),
                 fst (createOffer (bare robinson) agent 101 listed)))
    by (vm_compute; reflexivity).
  rewrite E in H. destruct H as (_ & _ & Hbest).
  apply Hbest. repeat constructor; vm_compute; discriminate.
Defined.

Lemma insights_two_or_more_witness :
  exists insights,
    get_listing_insights (fun _ => EmptyString) (Some agent) 1 thread
    = Json 200 insights /\
    riskAssessment insights <> None.
Proof.
  destruct (getOffers 1 thread) as [| first [| second rest]] eqn:Hoffers;
    [vm_compute in Hoffers; discriminate Hoffers
    | vm_compute in Hoffers; discriminate Hoffers |].
  assert (Hc : List.Forall (fun o => o_contingencies o <> None)
                           (first :: second :: rest)).
  { rewrite <- Hoffers. vm_compute.
    repeat (constructor; [discriminate |]). constructor. }
  destruct (insights_two_or_more (fun _ => EmptyString) agent 1 thread
              (fst (createListing home agent 100 MemStorage.empty))
              first second rest eq_refl eq_refl Hoffers Hc)
    as (insights & Hanswer & _ & Hrisk & _).
  exists insights. split; [exact Hanswer | exact Hrisk].
Defined.

(** ** Priorities *)

Lemma find_set_absent {V} (f : V -> bool) (k : Z) (v : V) (m : Map V) :
  List.find f (values m) = None -> f v = true ->
  List.find f (values (set k v m)) = Some v.
Proof.
  unfold values. intros Hnone Hv.
  induction m as [| [j w] rest IH]; simpl in *.
  - now rewrite Hv.
  - destruct (f w) eqn:Ew; [discriminate |].
    destruct (j =? k); simpl; [now rewrite Hv |].
    rewrite Ew. now apply IH.
Qed.

Lemma find_set_found {V} (id_of : V -> Z) (f : V -> bool) (e v : V)
    (m : Map V) :
  List.Forall (fun entry => id_of (snd entry) = fst entry) m ->
  List.find f (values m) = Some e -> f v = true ->
  List.find f (values (set (id_of e) v m)) = Some v.
Proof.
  unfold values. intros Hids Hfound Hv.
  induction Hids as [| [j w] rest Hw Hrest IH]; simpl in *; [discriminate |].
  destruct (f w) eqn:Ew.
  - injection Hfound as <-. rewrite Hw, Z.eqb_refl. simpl. now rewrite Hv.
  - destruct (j =? id_of e); simpl; [now rewrite Hv |].
    rewrite Ew. now apply IH.
Qed.

(** X18.  A listing created through [POST /api/listings] has, from then
    on, a priority profile with the five weights at 5: the owner's
    [GET .../priorities] answers it and creates nothing.  (No profile may
    already exist under the id that the listing receives.) *)
Theorem new_listing_has_default_priorities (uid : Z) (body : InsertListing)
    (now later : Z) (s : MemStorage.t) (ps : Priorities.t) :
  getListingPriorities (currentListingId s) ps = None ->
  exists listing s' ps' profile,
    post_listings (Some uid) (Some body) now s ps
    = (Json 201 listing, (s', ps')) /\
    l_userId listing = uid /\
    get_listing_priorities (Some uid) (l_id listing) later s' ps'
    = (Json 200 profile, ps') /\
    lp_listingId profile = l_id listing /\
    lp_offerPrice profile = Some 5 /\
    lp_netProceeds profile = Some 5 /\
    lp_closingTimeline profile = Some 5 /\
    lp_contingencies profile = Some 5 /\
    lp_buyerQualification profile = Some 5.
Proof.
  intros Hnone.
  unfold post_listings. simpl.
  eexists; eexists; eexists; eexists.
  split; [reflexivity |]. split; [reflexivity |].
  unfold get_listing_priorities, getListing. simpl.
  rewrite get_set_same. simpl. rewrite Z.eqb_refl. simpl.
  unfold getListingPriorities in *. simpl.
  rewrite (find_set_absent _ _ _ _ Hnone); [| simpl; apply Z.eqb_refl].
  repeat split.
Qed.

Lemma new_listing_has_default_priorities_witness :
  exists listing s' ps' profile,
    post_listings (Some agent) (Some home) 100 MemStorage.empty
                  Priorities.empty
    = (Json 201 listing, (s', ps')) /\
    get_listing_priorities (Some agent) (l_id listing) 105 s' ps'
    = (Json 200 profile, ps') /\
    lp_offerPrice profile = Some 5.
Proof.
  destruct (new_listing_has_default_priorities agent home 100 105
              MemStorage.empty Priorities.empty eq_refl)
    as (listing & s' & ps' & profile & Hpost & _ & Hget & _ & Hw & _).
  exists listing, s', ps', profile. repeat split; assumption.
Defined.

(** X19.  For the owner of a listing, [GET .../priorities] answers the
    listing's profile and creates one, with the five weights at 5, only
    when the listing has none; asked again, it answers the same profile
    and changes nothing. *)
Theorem get_priorities_creates_once (uid listingId now : Z)
    (s : MemStorage.t) (ps : Priorities.t) (listing : Listing) :
  getListing listingId s = Some listing ->
  l_userId listing = uid ->
  exists profile ps1,
    get_listing_priorities (Some uid) listingId now s ps
    = (Json 200 profile, ps1) /\
    lp_listingId profile = listingId /\
    (forall later,
       get_listing_priorities (Some uid) listingId later s ps1
       = (Json 200 profile, ps1)) /\
    match getListingPriorities listingId ps with
    | Some existing => profile = existing /\ ps1 = ps
    | None =>
        lp_id profile = currentPriorityId ps /\
        lp_offerPrice profile = Some 5 /\
        lp_netProceeds profile = Some 5 /\
        lp_closingTimeline profile = Some 5 /\
        lp_contingencies profile = Some 5 /\
        lp_buyerQualification profile = Some 5
    end.
Proof.
  intros Hl Hu.
  unfold get_listing_priorities. rewrite Hl, Hu, Z.eqb_refl. simpl.
  destruct (getListingPriorities listingId ps) as [existing |] eqn:Hfind.
  - exists existing, ps. split; [reflexivity |].
    split.
    { unfold getListingPriorities in Hfind.
      apply List.find_some in Hfind. now apply Z.eqb_eq. }
    split; [| now split].
    intros later. now rewrite Hfind.
  - simpl. eexists; eexists. split; [reflexivity |].
    split; [reflexivity |].
    split; [| repeat split].
    intros later. unfold getListingPriorities in *. simpl.
    rewrite (find_set_absent _ _ _ _ Hfind); [reflexivity |].
    simpl. apply Z.eqb_refl.
Qed.

Lemma get_priorities_creates_once_witness :
  exists profile ps1,
    get_listing_priorities (Some agent) 1 105 listed Priorities.empty
    = (Json 200 profile, ps1) /\
    get_listing_priorities (Some agent) 1 106 listed ps1
    = (Json 200 profile, ps1).
Proof.
  destruct (get_priorities_creates_once agent 1 105 listed Priorities.empty
              (fst (createListing home agent 100 MemStorage.empty))
              eq_refl eq_refl)
    as (profile & ps1 & Hget & _ & Hagain & _).
  exists profile, ps1. split; [exact Hget | exact (Hagain 106)].
Defined.

(** X20.  For the owner of a listing, a [PATCH .../priorities] whose body
    does not name a listing answers a profile of that listing in which
    every supplied weight is the supplied number and every other weight is
    what the listing's profile held (nothing, when the listing had no
    profile); the [GET] that follows answers that same profile. *)
Theorem patch_priorities_round_trip (uid listingId now later : Z)
    (body : PartialPriorities) (s : MemStorage.t) (ps : Priorities.t)
    (listing : Listing) :
  getListing listingId s = Some listing ->
  l_userId listing = uid ->
  keyed lp_id (listingPrioritiesData ps) (currentPriorityId ps) ->
  pp_listingId body = None ->
  exists profile ps1,
    patch_listing_priorities (Some uid) listingId (Some body) now s ps
    = (Json 200 profile, ps1) /\
    get_listing_priorities (Some uid) listingId later s ps1
    = (Json 200 profile, ps1) /\
    keyed lp_id (listingPrioritiesData ps1) (currentPriorityId ps1) /\
    lp_listingId profile = listingId /\
    lp_offerPrice profile
    = overWeight (previous lp_offerPrice listingId ps) (pp_offerPrice body) /\
    lp_netProceeds profile
    = overWeight (previous lp_netProceeds listingId ps)
                 (pp_netProceeds body) /\
    lp_closingTimeline profile
    = overWeight (previous lp_closingTimeline listingId ps)
                 (pp_closingTimeline body) /\
    lp_contingencies profile
    = overWeight (previous lp_contingencies listingId ps)
                 (pp_contingencies body) /\
    lp_buyerQualification profile
    = overWeight (previous lp_buyerQualification listingId ps)
                 (pp_buyerQualification body).
Proof.
  intros Hl Hu Hk Hbody.
  unfold patch_listing_priorities, get_listing_priorities, previous.
  rewrite Hl, Hu, Z.eqb_refl. simpl.
  unfold updateListingPriorities.
  destruct (getListingPriorities listingId ps) as [existing |] eqn:Hfind.
  - pose proof Hfind as Hsome. unfold getListingPriorities in Hsome.
    apply List.find_some in Hsome. destruct Hsome as (Hin & Hlid).
    apply Z.eqb_eq in Hlid.
    simpl. eexists; eexists. split; [reflexivity |].
    rewrite Hbody. simpl.
    split.
    { unfold getListingPriorities in *. simpl.
      rewrite (find_set_found lp_id _ existing _ _ (proj2 (proj2 Hk)) Hfind);
        [reflexivity |].
      simpl. now apply Z.eqb_eq. }
    split.
    { simpl.
      assert (Hget : exists k, get k (listingPrioritiesData ps)
                               = Some existing /\ k = lp_id existing).
      { destruct Hk as (Hkeys & _ & Hids).
        unfold values in Hin. apply List.in_map_iff in Hin.
        destruct Hin as ([k e] & He & Hentry). simpl in He. subst e.
        rewrite List.Forall_forall in Hids.
        pose proof (Hids _ Hentry) as Hid. simpl in Hid.
        exists k. split; [| now symmetry].
        assert (Hnd : List.NoDup (List.map fst (listingPrioritiesData ps))).
        { rewrite Hkeys. apply List.NoDup_map_NoDup_ForallPairs;
            [| apply List.seq_NoDup].
          intros a b _ _ Hab. lia. }
        clear Hkeys Hids Hid Hfind.
        induction (listingPrioritiesData ps) as [| [j w] rest IH];
          simpl in *; [contradiction |].
        inversion Hnd as [| ? ? Hnotin Hrest]; subst.
        destruct Hentry as [Heq | Hentry].
        - injection Heq as -> ->. now rewrite Z.eqb_refl.
        - destruct (j =? k) eqn:E; [| now apply IH].
          apply Z.eqb_eq in E. subst j. exfalso. apply Hnotin.
          apply List.in_map_iff. now exists (k, existing). }
      destruct Hget as (k & Hget & ->).
      apply (keyed_replace lp_id _ _ _ _ existing);
        [exact Hk | exact Hget | reflexivity]. }
    repeat split. exact Hlid.
  - simpl. eexists; eexists. split; [reflexivity |].
    split.
    { unfold getListingPriorities in *. simpl.
      rewrite (find_set_absent _ _ _ _ Hfind); [reflexivity |].
      simpl. apply Z.eqb_refl. }
    split.
    { simpl. apply (keyed_append lp_id); [exact Hk | reflexivity]. }
    simpl. repeat split;
      match goal with
      | |- ?w = overWeight None ?w => destruct w; reflexivity
      end.
Qed.


Lemma patch_priorities_round_trip_witness :
  exists profile ps1,
    patch_listing_priorities (Some agent) 1 (Some price_first) 105 listed
                             Priorities.empty
    = (Json 200 profile, ps1) /\
    get_listing_priorities (Some agent) 1 106 listed ps1
    = (Json 200 profile, ps1) /\
    lp_offerPrice profile = Some 9 /\
    lp_netProceeds profile = None.
Proof.
  assert (Hk : keyed lp_id (listingPrioritiesData Priorities.empty)
                     (currentPriorityId Priorities.empty)).
  { repeat split. constructor. }
  destruct (patch_priorities_round_trip agent 1 105 106 price_first listed
              Priorities.empty
              (fst (createListing home agent 100 MemStorage.empty))
              eq_refl eq_refl Hk eq_refl)
    as (profile & ps1 & Hpatch & Hget & _ & _ & Hprice & Hnet & _).
  exists profile, ps1. repeat split; assumption.
Defined.

(** ** Accounts *)

Lemma find_absent_image {V W} (f : V -> W) (test : W -> bool) (l : list V)
    (w : W) :
  List.find (fun v => test (f v)) l = None ->
  (forall x, test x = true <-> x = w) ->
  ~ List.In w (List.map f l).
Proof.
  intros Hnone Htest Hin.
  apply List.in_map_iff in Hin. destruct Hin as (v & <- & Hv).
  pose proof (List.find_none _ _ Hnone v Hv) as Hf. simpl in Hf.
  assert (Ht : test (f v) = true) by now apply Htest.
  congruence.
Qed.

Lemma NoDup_snoc {A} (l : list A) (a : A) :
  List.NoDup l -> ~ List.In a l -> List.NoDup (l ++ [a]).
Proof.
  intros Hl Ha. apply List.NoDup_app; [exact Hl | |].
  - constructor; [intros [] | constructor].
  - intros x Hx [<- | []]. now apply Ha.
Qed.

(** A registration keeps the keys of the user map and the uniqueness of
    usernames and emails. *)
Lemma post_register_keeps (username email hashed : string) (now : Z)
    (us : Users.t) :
  keyed usr_id (usersData us) (currentUserId us) /\ unique_accounts us ->
  keyed usr_id (usersData (snd (post_register username email hashed now us)))
        (currentUserId (snd (post_register username email hashed now us))) /\
  unique_accounts (snd (post_register username email hashed now us)).
Proof.
  intros (Hk & Hnames & Hemails).
  unfold post_register.
  destruct (getUserByUsername username us) eqn:Hn;
    [simpl; split; [exact Hk | split; assumption] |].
  destruct (getUserByEmail email us) eqn:He;
    [simpl; split; [exact Hk | split; assumption] |].
  simpl.
  match goal with
  | |- context [set (currentUserId us) ?u (usersData us)] =>
      destruct (keyed_append usr_id (usersData us) (currentUserId us) u Hk
                  eq_refl) as (Happ & Hk')
  end.
  split; [exact Hk' |].
  unfold unique_accounts, values. simpl. rewrite Happ.
  rewrite !List.map_app. simpl.
  split; apply NoDup_snoc; try assumption.
  - apply (find_absent_image usr_username (fun x => String.eqb x username));
      [exact Hn |].
    intros x. apply String.eqb_eq.
  - apply (find_absent_image usr_email (fun x => String.eqb x email));
      [exact He |].
    intros x. apply String.eqb_eq.
Qed.

Lemma NoDup_twice {A} (l : list A) (a : A) : ~ List.NoDup (l ++ [a; a]).
Proof.
  intros H. apply List.NoDup_app_remove_l in H.
  inversion H as [| ? ? Hnotin _]; subst. apply Hnotin. now left.
Qed.

(** X21.  [POST /api/register] is its lookups followed, across the await
    of the password hash, by its creation.  When the requests are served
    one at a time, however many and with whatever names, no two of the
    accounts created share a username or an email.  When a second request
    for the same free username is taken up while the first awaits its
    hash, both pass the lookups and both create: two accounts with that
    username exist afterwards. *)
Theorem registration_uniqueness :
  (forall username email hashed now us,
     post_register username email hashed now us
     = match register_lookups username email us with
       | Some refusal => (refusal, us)
       | None => register_creates username email hashed now us
       end) /\
  (forall requests, unique_accounts (registered requests)) /\
  (forall username email1 email2 hashed1 hashed2 now1 now2 us,
     keyed usr_id (usersData us) (currentUserId us) ->
     getUserByUsername username us = None ->
     getUserByEmail email1 us = None ->
     getUserByEmail email2 us = None ->
     let us' := overlapped (username, email1, hashed1, now1)
                           (username, email2, hashed2, now2) us in
     ~ unique_accounts us' /\
     exists first second,
       getUser (currentUserId us) us' = Some first /\
       getUser (currentUserId us + 1) us' = Some second /\
       usr_username first = username /\
       usr_username second = username).
Proof.
  split; [| split].
  - intros username email hashed now us.
    unfold post_register, register_lookups, register_creates.
    destruct (getUserByUsername username us); [reflexivity |].
    destruct (getUserByEmail email us); reflexivity.
  - intros requests. unfold registered.
    assert (Hempty : keyed usr_id (usersData Users.empty)
                           (currentUserId Users.empty)
                     /\ unique_accounts Users.empty).
    { repeat split; constructor. }
    revert Hempty. generalize Users.empty as us.
    induction requests as [| [[[username email] hashed] now] requests IH];
      intros us Hus; simpl; [exact (proj2 Hus) |].
    apply IH. now apply post_register_keeps.
  - intros username email1 email2 hashed1 hashed2 now1 now2 us Hk Hn He1 He2.
    unfold overlapped, register_lookups, register_creates.
    rewrite Hn, He1, He2. simpl.
    match goal with
    | |- context [set (currentUserId us) ?u (usersData us)] =>
        destruct (keyed_append usr_id (usersData us) (currentUserId us) u Hk
                    eq_refl) as (Happ1 & Hk1); set (first := u) in *
    end.
    match goal with
    | |- context [set (currentUserId us + 1) ?u _] =>
        destruct (keyed_append usr_id _ (currentUserId us + 1) u Hk1
                    eq_refl) as (Happ2 & _); set (second := u) in *
    end.
    split.
    + intros (Hnames & _). unfold values in Hnames. simpl in Hnames.
      rewrite Happ2, Happ1, <- List.app_assoc, List.map_app, List.map_app
        in Hnames.
      simpl in Hnames. exact (NoDup_twice _ _ Hnames).
    + exists first, second. unfold getUser. simpl.
      split.
      { rewrite get_set_other by lia. apply get_set_same. }
      split; [apply get_set_same |]. split; reflexivity.
Qed.

Lemma registration_uniqueness_witness :
  ~ unique_accounts
      (overlapped ("james", "james@example.com", "77aa.01", 60)%string
                  ("james", "jim@example.com", "c4d1.9e", 61)%string
                  one_account).
Proof.
  assert (Hk : keyed usr_id (usersData one_account)
                     (currentUserId one_account)).
  { apply (post_register_keeps "rebecca" "rebecca@example.com" "5e1f.a0c3" 50
             Users.empty).
    repeat split; constructor. }
  exact (proj1 (proj2 (proj2 registration_uniqueness) "james"%string
                  "james@example.com"%string "jim@example.com"%string
                  "77aa.01"%string "c4d1.9e"%string 60 61 one_account Hk
                  eq_refl eq_refl eq_refl)).
Defined.


(** X23.  A first Google sign-in whose email is not registered creates an
    account carrying the Google id; every later sign-in with that id is
    answered with that account and creates nothing. *)
Theorem google_first_sign_in (profileId address displayName : string)
    (now : Z) (us : Users.t) :
  getUserByGoogleId profileId us = None ->
  address <> EmptyString ->
  getUserByEmail address us = None ->
  exists user us1,
    google_verify profileId (Some address) displayName now us
    = (Returned user, us1) /\
    usr_googleId user = Some profileId /\
    usr_email user = address /\
    usr_password user = None /\
    forall email' displayName' later,
      google_verify profileId email' displayName' later us1
      = (Returned user, us1).
Proof.
  intros Hg Haddr He.
  unfold google_verify. rewrite Hg.
  destruct address as [| a address]; [contradiction |].
  rewrite He. simpl.
  eexists; eexists. split; [reflexivity |].
  repeat split.
  intros email' displayName' later.
  unfold getUserByGoogleId in *. simpl.
  rewrite (find_set_absent _ _ _ _ Hg); [reflexivity |].
  simpl. apply String.eqb_refl.
Qed.

Lemma google_first_sign_in_witness :
  exists user us1,
    google_verify "g-104" (Some "james@example.com"%string) "James" 60
                  one_account
    = (Returned user, us1) /\
    google_verify "g-104" None "James" 61 us1 = (Returned user, us1).
Proof.
  assert (Hne : "james@example.com"%string <> EmptyString) by discriminate.
  destruct (google_first_sign_in "g-104" "james@example.com" "James" 60
              one_account eq_refl Hne eq_refl)
    as (user & us1 & Hfirst & _ & _ & _ & Hlater).
  exists user, us1. split; [exact Hfirst | exact (Hlater None _ 61)].
Defined.

Lemma keyed_lookup {V} (id_of : V -> Z) (m : Map V) (next : Z) (v : V) :
  keyed id_of m next -> List.In v (values m) -> get (id_of v) m = Some v.
Proof.
  intros (Hkeys & _ & Hids) Hin.
  unfold values in Hin. apply List.in_map_iff in Hin.
  destruct Hin as ([k e] & He & Hentry). simpl in He. subst e.
  rewrite List.Forall_forall in Hids.
  pose proof (Hids _ Hentry) as Hid. simpl in Hid. rewrite Hid.
  assert (Hnd : List.NoDup (List.map fst m)).
  { rewrite Hkeys. apply List.NoDup_map_NoDup_ForallPairs;
      [| apply List.seq_NoDup].
    intros a b _ _ Hab. lia. }
  clear Hkeys Hids Hid.
  induction m as [| [j w] rest IH]; simpl in *; [contradiction |].
  inversion Hnd as [| ? ? Hnotin Hrest]; subst.
  destruct Hentry as [Heq | Hentry].
  - injection Heq as -> ->. now rewrite Z.eqb_refl.
  - destruct (j =? k) eqn:E; [| now apply IH].
    apply Z.eqb_eq in E. subst j. exfalso. apply Hnotin.
    apply List.in_map_iff. now exists (k, v).
Qed.

Lemma find_none_image {V W} (f : V -> W) (test : W -> bool) (l l' : list V) :
  List.map f l = List.map f l' ->
  List.find (fun v => test (f v)) l = None ->
  List.find (fun v => test (f v)) l' = None.
Proof.
  revert l'. induction l as [| a l IH]; intros [| a' l'] H; simpl in *;
    try discriminate; [reflexivity |].
  injection H as Ha Hl. rewrite <- Ha.
  destruct (test (f a)); [discriminate |]. now apply IH.
Qed.

(** X24.  A Google sign-in whose email belongs to an account without that
    Google id answers that account with the Google profile id written to
    its [stripeCustomerId]; its [googleId] is left as it was, so the
    account is still not found by the Google id afterwards. *)
Theorem google_sign_in_existing_email (profileId address displayName : string)
    (now : Z) (us : Users.t) (existing : User) :
  keyed usr_id (usersData us) (currentUserId us) ->
  getUserByGoogleId profileId us = None ->
  address <> EmptyString ->
  getUserByEmail address us = Some existing ->
  exists user us',
    google_verify profileId (Some address) displayName now us
    = (Returned user, us') /\
    usr_id user = usr_id existing /\
    usr_email user = address /\
    usr_googleId user = usr_googleId existing /\
    usr_stripeCustomerId user = Some profileId /\
    getUser (usr_id existing) us' = Some user /\
    getUserByGoogleId profileId us' = None.
Proof.
  intros Hk Hg Haddr He.
  unfold google_verify. rewrite Hg.
  destruct address as [| a address]; [contradiction |].
  rewrite He.
  pose proof He as Hfound. unfold getUserByEmail in Hfound.
  apply List.find_some in Hfound. destruct Hfound as (Hin & Hmail).
  apply String.eqb_eq in Hmail.
  pose proof (keyed_lookup usr_id _ _ _ Hk Hin) as Hget.
  unfold updateUserStripeInfo, getUser. rewrite Hget.
  eexists; eexists. split; [reflexivity |]. simpl.
  split; [reflexivity |]. split; [exact Hmail |].
  split; [reflexivity |]. split; [reflexivity |].
  split; [apply get_set_same |].
  unfold getUserByGoogleId in *. simpl.
  apply (find_none_image usr_googleId (fun g => same_id g profileId)
           (values (usersData us))); [| exact Hg].
  symmetry. apply values_set_same_image with (w := existing);
    [exact Hget | reflexivity].
Qed.

Lemma google_sign_in_existing_email_witness :
  exists user us',
    google_verify "g-7" (Some "rebecca@example.com"%string) "Rebecca" 60
                  one_account
    = (Returned user, us') /\
    usr_stripeCustomerId user = Some "g-7"%string /\
    getUserByGoogleId "g-7" us' = None.
Proof.
  assert (Hk : keyed usr_id (usersData one_account)
                     (currentUserId one_account)).
  { apply (post_register_keeps "rebecca" "rebecca@example.com" "5e1f.a0c3" 50
             Users.empty).
    repeat split; constructor. }
  assert (Hne : "rebecca@example.com"%string <> EmptyString) by discriminate.
  destruct (google_sign_in_existing_email "g-7" "rebecca@example.com"
              "Rebecca" 60 one_account _ Hk eq_refl Hne eq_refl)
    as (user & us' & Hverify & _ & _ & _ & Hstripe & _ & Hnone).
  exists user, us'. repeat split; assumption.
Defined.

(** ** The offer card and the counter-offer preview *)

(** X25.  The risk badge of the offer card, for an offer as [createOffer]
    stores it: "Low" with at most one contingency, "Medium" with exactly
    two, "High" with three or more. *)
Theorem risk_badge_by_contingencies (input : OfferInput) (userId now : Z)
    (s : MemStorage.t) :
  let offer := fst (createOffer input userId now s) in
  let n := contingency_count (fields input) in
  (n <= 1 -> riskLevel offer = "Low"%string) /\
  (n = 2 -> riskLevel offer = "Medium"%string) /\
  (3 <= n -> riskLevel offer = "High"%string).
Proof.
  intros offer n.
  assert (Hrisk : o_riskScore offer = Z.max 1 (10 - 2 * n)).
  { unfold offer, n, createOffer, contingency_count, riskScoreOf.
    cbn [fst o_riskScore].
    destruct (in_contingencies (fields input)); cbn [List.length]; lia. }
  assert (Hn : 0 <= n).
  { unfold n, contingency_count.
    destruct (in_contingencies (fields input)); lia. }
  unfold riskLevel. rewrite Hrisk.
  repeat split; intros H.
  - destruct (8 <=? Z.max 1 (10 - 2 * n)) eqn:E; [reflexivity |].
    apply Z.leb_gt in E. lia.
  - subst n. rewrite H. reflexivity.
  - destruct (8 <=? Z.max 1 (10 - 2 * n)) eqn:E;
      [apply Z.leb_le in E; lia |].
    destruct (5 <=? Z.max 1 (10 - 2 * n)) eqn:E';
      [apply Z.leb_le in E'; lia | reflexivity].
Qed.

Lemma risk_badge_by_contingencies_witness :
  riskLevel (fst (createOffer (bare robinson) agent 101 listed))
  = "Low"%string /\
  riskLevel (fst (createOffer (bare slow_close) agent 101 listed))
  = "High"%string.
Proof.
  split.
  - apply (proj1 (risk_badge_by_contingencies (bare robinson) agent 101
                    listed)).
    vm_compute. discriminate.
  - apply (proj2 (proj2 (risk_badge_by_contingencies (bare slow_close) agent
                           101 listed))).
    vm_compute. discriminate.
Defined.

(** X26.  The "Loan Balance" line of the card's breakdown, for an offer
    created through [POST /api/offers], does not depend on the loan balance
    of the listing: it is 0 when a non-zero commission was supplied, and
    six percent of the price when none was. *)
Theorem card_loan_balance_line (uid : Z) (body : InsertOffer) (now : Z)
    (s : MemStorage.t) (listing : Listing) :
  getListing (in_listingId body) s = Some listing ->
  l_userId listing = uid ->
  exists offer,
    stored_by_post uid body now s = Some offer /\
    (forall c, in_agentCommission body = Some c -> truthy c = true ->
               (loanBalanceLine offer == 0)%Q) /\
    (in_agentCommission body = None ->
     (loanBalanceLine offer == (6 # 100) * in_price body)%Q).
Proof.
  intros Hl Hu.
  eexists. split; [exact (post_offers_accepts uid body now s listing Hl Hu) |].
  unfold loanBalanceLine, createOffer, commissionOf, orQ.
  cbn [fst o_price o_netProceeds o_agentCommission fields
       offerWithNetProceeds].
  split.
  - intros c Hc Ht. rewrite Hc, Ht. ring.
  - intros Hc. rewrite Hc. ring.
Qed.

Lemma card_loan_balance_line_witness :
  exists offer,
    stored_by_post agent robinson 101 listed = Some offer /\
    (loanBalanceLine offer == 0)%Q.
Proof.
  destruct (card_loan_balance_line agent robinson 101 listed
              (fst (createListing home agent 100 MemStorage.empty))
              eq_refl eq_refl) as (offer & Hstored & Hzero & _).
  exists offer. split; [exact Hstored |].
  apply (Hzero 3%Q); reflexivity.
Defined.

(** X27.  The counter-offer preview shows the risk score and the overall
    score that [createOffer] will store for the same form values.  Its net
    proceeds are the stored ones when the commission is a non-zero dollar
    amount; for a percentage [c] the preview deducts [price * c / 100]
    where the stored record deducts [c]. *)
Theorem preview_agrees_with_creation (originalOffer : Offer)
    (formValues : InsertOffer) (given : option Q) (now userId created : Z)
    (s : MemStorage.t) :
  let preview := getPreviewCounterOffer originalOffer formValues now in
  let stored :=
    fst (createOffer {| fields := formValues; given_netProceeds := given |}
                     userId created s) in
  pv_riskScore preview = o_riskScore stored /\
  pv_overallScore preview = o_overallScore stored /\
  (forall c,
     in_agentCommission formValues = Some c -> truthy c = true ->
     (is_percent (in_commissionType formValues) = false ->
      pv_netProceeds preview = o_netProceeds stored) /\
     (is_percent (in_commissionType formValues) = true ->
      (pv_netProceeds preview == in_price formValues
                                 - in_price formValues * c / 100)%Q /\
      (o_netProceeds stored == in_price formValues - c)%Q)).
Proof.
  intros preview stored.
  split; [reflexivity |]. split; [reflexivity |].
  intros c Hc Ht.
  unfold preview, stored, getPreviewCounterOffer, createOffer, commissionOf,
    orQ.
  cbn [fst pv_netProceeds o_netProceeds fields].
  rewrite Hc, Ht.
  split; intros Hp; rewrite Hp; [reflexivity |].
  split; reflexivity.
Qed.

Lemma preview_agrees_with_creation_witness :
  (pv_netProceeds (getPreviewCounterOffer robinson_offer robinson 200)
   == 679000)%Q /\
  (o_netProceeds (fst (createOffer (bare robinson) agent 201 one_offer))
   == 699997)%Q.
Proof.
  destruct (preview_agrees_with_creation robinson_offer robinson None 200
              agent 201 one_offer) as (_ & _ & Hnet).
  destruct (Hnet 3%Q eq_refl eq_refl) as (_ & Hpercent).
  destruct (Hpercent eq_refl) as (Hpreview & Hstored).
  split; [rewrite Hpreview | rewrite Hstored]; reflexivity.
Defined.
